(** * ember-cli-data-validation: the validator mixin

    A shallow embedding of [addon/mixins/validator.js] and the properties of
    its validation pass and commit guard.

    The mixin is stateful JavaScript: it mutates the record's error
    collection, the record's lifecycle flags, the validator classes and the
    configuration objects found in the declared validation metadata.  The
    embedding threads an explicit [Store] through a small state-and-exception
    monad, and keeps the objects that are shared by reference in a heap.

    The file's functions are embedded as they are written.  What they call
    and do not define is outside the file: Ember's helpers ([isEmpty],
    [isArray], [merge], [assert], [run], [camelize]), Ember Data's record
    (its flags, its signals, its Error Collection), the validators and the
    message resolvers that the container hands out, and the addon's own
    [utils], [error] and [messages] modules.  Each of these is either a
    field of a record below or a definition that says what it stands for.
    Two of Ember's helpers depend on how Ember is built and run, and both
    ways are kept: [Ember.assert] checks its condition in a development
    build only, and the run loop entered by [Ember.run] throws again what
    its callback throws in testing mode only. *)

From stdpp Require Import base strings list gmap.

Local Open Scope string_scope.
Local Open Scope list_scope.

(** ** JavaScript values *)

Definition loc := nat.
Definition fid := nat.

(** Objects and arrays are held by reference. *)
Inductive val :=
| VUndefined
| VNull
| VBool (b : bool)
| VNum (n : Z)
| VStr (s : string)
| VObject (l : loc).

Global Instance val_eq_dec : EqDecision val.
Proof. solve_decision. Defined.

(** The [typeof] operator; [typeof null] is ["object"]. *)
Definition typeof (v : val) : string :=
  match v with
  | VUndefined => "undefined"
  | VNull => "object"
  | VBool _ => "boolean"
  | VNum _ => "number"
  | VStr _ => "string"
  | VObject _ => "object"
  end.

Definition truthy (v : val) : bool :=
  match v with
  | VUndefined | VNull => false
  | VBool b => b
  | VNum n => negb (n =? 0)%Z
  | VStr s => negb (String.eqb s "")
  | VObject _ => true
  end.

(** [a || b] on values and on registry results. *)
Definition js_or (a b : val) : val := if truthy a then a else b.

Definition or_else {A} (a b : option A) : option A :=
  match a with
  | Some x => Some x
  | None => b
  end.

(** An object is its list of own properties in enumeration order (property
    names are ordinary identifiers, which JavaScript enumerates in insertion
    order). *)
Abbreviation props := (list (string * val)).

(** [o[k]] *)
Fixpoint get_prop (k : string) (o : props) : val :=
  match o with
  | [] => VUndefined
  | (k', v) :: o' => if String.eqb k k' then v else get_prop k o'
  end.

(** [o[k] = v]: an existing property keeps its position, a new one is
    enumerated last. *)
Fixpoint set_prop (k : string) (v : val) (o : props) : props :=
  match o with
  | [] => [(k, v)]
  | (k', v') :: o' =>
      if String.eqb k k' then (k', v) :: o' else (k', v') :: set_prop k v o'
  end.

Definition Object_keys (o : props) : list string := map fst o.

(** [Ember.merge(original, updates)] assigns every property of [updates] on
    [original], in the enumeration order of [updates]. *)
Definition Ember_merge (original updates : props) : props :=
  foldl (fun o kv => set_prop (fst kv) (snd kv) o) original updates.
Global Arguments Ember_merge : simpl never.

(** ** Data model *)

(** The [validation] entry of an attribute's options: absent, one rule
    object, or an array of rule objects.  A rule object maps rule-type keys
    to rule values. *)
Inductive Validation :=
| NoValidation
| OneRule (r : props)
| RuleList (rs : list props).

(** [Ember.isEmpty] at the types it is used on. *)
Class EmberEmpty (A : Type) := isEmpty : A -> bool.

(** [Ember.isEmpty(obj)]: true for [undefined] and [null]; for anything
    else a [size] that is a number decides ([!obj.size]), then a [length]
    that is a number ([!obj.length]); otherwise false.  An array has its
    length; a rule object is looked at as any other object, so its [size] and
    [length] entries, when it has them, take part. *)
Global Instance Validation_empty : EmberEmpty Validation := fun v =>
  match v with
  | NoValidation => true
  | OneRule r =>
      match get_prop "size" r with
      | VNum n => (n =? 0)%Z
      | _ =>
          match get_prop "length" r with
          | VNum n => (n =? 0)%Z
          | _ => false
          end
      end
  | RuleList rs => match rs with [] => true | _ => false end
  end.

(** [Ember.isArray(obj)]: false for a falsy value and for one with a truthy
    [setInterval]; true for an array; true for any other object whose
    [length] is not [undefined]. *)
Definition isArray (v : Validation) : bool :=
  match v with
  | NoValidation => false
  | OneRule r =>
      if truthy (get_prop "setInterval" r) then false
      else negb (bool_decide (get_prop "length" r = VUndefined))
  | RuleList _ => true
  end.
Global Arguments isArray : simpl never.

(** A resolved message is a string or nothing. *)
Global Instance message_empty : EmberEmpty (option string) := fun m =>
  match m with
  | None => true
  | Some s => String.eqb s ""
  end.

(** An attribute or relationship descriptor, as handed to the callbacks of
    [eachAttribute] and [eachRelationship]. *)
Record Attribute := {
  field_name : string;
  attr_ref : loc;              (* identity of the descriptor object *)
  validation : Validation      (* attribute.options.validation *)
}.

(** Modelled from the spec: [attrName] is the helper of [addon/utils], which
    is not part of the mixin's file; it gives the field name under which the
    value is read and the errors are stored. *)
Definition attrName (attribute : Attribute) : string := field_name attribute.
Global Arguments attrName : simpl never.

(** The object literal pushed by [validatorsFor]. *)
Record Rule := {
  type : string;
  value : val;
  attribute : Attribute
}.

(** What a validator sees when [validate(name, value, attribute, model)] is
    invoked on an instance. *)
Record Call := {
  this_typeKey : option string;   (* this.constructor.typeKey *)
  this_props : props;             (* the properties given to create() *)
  arg_name : string;
  arg_value : val;
  arg_attribute : Attribute;
  arg_parentTypeKey : val;        (* attribute.parentTypeKey *)
  arg_model : string -> val       (* field values of the record *)
}.

(** Validators are external, synchronous and pure: a class is its identity
    together with the function its instances compute. *)
Record ValidatorClass := {
  class_id : fid;
  run : Call -> val
}.

Record Validator := {
  vclass : ValidatorClass;
  vprops : props
}.

Record MessageResolver := {
  resolver_ref : loc;
  resolveMessage : string -> option string
}.

(** The owner of a record: name-based lookup of resolvers and factories. *)
Record Container := {
  container_lookup : string -> option MessageResolver;
  container_lookupFactory : string -> option ValidatorClass
}.

(** What the file imports and does not define: a library function, the
    default message of [addon/messages], taken as a parameter, and the two
    settings of Ember that the file's calls depend on. *)
Record Imports := {
  camelize : string -> string;        (* Ember.String.camelize *)
  defaultMessages_error : string;     (* Ember.get(defaultMessages, 'error') *)
  Ember_debug : bool;                 (* a development build: Ember.assert checks *)
  Ember_testing : bool                (* Ember.testing: the run loop rethrows *)
}.

(** The record the mixin is applied to, as far as the mixin reads it. *)
Record Model := {
  container : Container;
  get : string -> val;                      (* this.get(name) on a field *)
  constructor_modelName : val;
  constructor_typeKey : val;
  attributes : list Attribute;              (* order of eachAttribute *)
  relationships : list Attribute            (* order of eachRelationship *)
}.

(** What the file's code throws. *)
Inductive error :=
| AssertionFailed (msg : string)
| TypeError (msg : string).

(** Observable steps of a pass. *)
Inductive event :=
| Sent (signal : string)                    (* this.send(signal) *)
| Triggered (signal : string)               (* errors.trigger(signal) *)
| Validated (class : fid) (field : string)  (* validator.validate(...) *)
| Reported (e : error).                     (* Ember.onerror(e), or the console *)

(** Modelled from the spec: the Error Collection is Ember Data's; it maps a
    field name to an ordered sequence of messages, adding never overwrites,
    it is empty iff no field has an entry, clearing removes every entry.  It
    is kept as the ordered list of (field, message) entries. *)
Abbreviation Errors := (list (string * string)).

Definition errorsFor (name : string) (e : Errors) : list string :=
  map snd (filter (fun p => fst p = name) e).

Global Instance Errors_empty : EmberEmpty Errors := fun e =>
  match e with [] => true | _ => false end.

(** The mutable state touched by the mixin. *)
Record Store := {
  heap : gmap loc props;            (* configuration objects, by reference *)
  typeKeys : gmap fid string;       (* validatorClass.typeKey *)
  parentTypeKeys : gmap loc val;    (* attribute.parentTypeKey *)
  errors : Errors;                  (* this.get('errors') *)
  isValid : bool;                   (* this.get('isValid') *)
  isDeleted : bool;                 (* this.get('isDeleted') *)
  log : list event
}.

(** An object that was never written has no properties. *)
Definition deref (h : gmap loc props) (l : loc) : props := default [] (h !! l).

(** Modelled from the spec: [ValidationError] is the class of [addon/error],
    which is not part of the mixin's file; it wraps one top-level message and
    the Error Collection of the moment it is built. *)
Record ValidationError := {
  message : string;
  error_errors : Errors          (* the [errors] field *)
}.

(** What [save] hands back: the result of the inherited [save] (the commit),
    or a rejected promise. *)
Inductive outcome :=
| Super
| Reject (reason : ValidationError).

(** ** State and exceptions *)

Inductive result (A : Type) :=
| Return (a : A)
| Throw (e : error).
Arguments Return {A} a.
Arguments Throw {A} e.

Definition M (A : Type) : Type := Store -> result A * Store.

Definition ret {A} (a : A) : M A := fun s => (Return a, s).

Definition throw {A} (e : error) : M A := fun s => (Throw e, s).

Definition bind {A B} (m : M A) (k : A -> M B) : M B := fun s =>
  match m s with
  | (Return a, s') => k a s'
  | (Throw e, s') => (Throw e, s')
  end.

Definition read {A} (f : Store -> A) : M A := fun s => (Return (f s), s).

Definition modify (f : Store -> Store) : M unit := fun s => (Return tt, f s).

Notation "x <- c1 ;; c2" := (bind c1 (fun x => c2))
  (at level 100, c1 at next level, right associativity).
Notation "c1 ;; c2" := (bind c1 (fun _ => c2))
  (at level 100, right associativity).

(** [xs.map(f)] *)
Fixpoint mapM {A B} (f : A -> M B) (xs : list A) : M (list B) :=
  match xs with
  | [] => ret []
  | x :: xs' => y <- f x ;; ys <- mapM f xs' ;; ret (y :: ys)
  end.

(** [xs.forEach(f)] *)
Fixpoint forEach {A} (xs : list A) (f : A -> M unit) : M unit :=
  match xs with
  | [] => ret tt
  | x :: xs' => f x ;; forEach xs' f
  end.

(** *** Store updates *)

Definition set_heap (h : gmap loc props) (s : Store) : Store :=
  {| heap := h; typeKeys := typeKeys s; parentTypeKeys := parentTypeKeys s;
     errors := errors s; isValid := isValid s; isDeleted := isDeleted s;
     log := log s |}.

Definition set_typeKeys (t : gmap fid string) (s : Store) : Store :=
  {| heap := heap s; typeKeys := t; parentTypeKeys := parentTypeKeys s;
     errors := errors s; isValid := isValid s; isDeleted := isDeleted s;
     log := log s |}.

Definition set_parentTypeKeys (p : gmap loc val) (s : Store) : Store :=
  {| heap := heap s; typeKeys := typeKeys s; parentTypeKeys := p;
     errors := errors s; isValid := isValid s; isDeleted := isDeleted s;
     log := log s |}.

Definition set_errors (e : Errors) (s : Store) : Store :=
  {| heap := heap s; typeKeys := typeKeys s; parentTypeKeys := parentTypeKeys s;
     errors := e; isValid := isValid s; isDeleted := isDeleted s;
     log := log s |}.

Definition set_isValid (b : bool) (s : Store) : Store :=
  {| heap := heap s; typeKeys := typeKeys s; parentTypeKeys := parentTypeKeys s;
     errors := errors s; isValid := b; isDeleted := isDeleted s;
     log := log s |}.

Definition set_isDeleted (b : bool) (s : Store) : Store :=
  {| heap := heap s; typeKeys := typeKeys s; parentTypeKeys := parentTypeKeys s;
     errors := errors s; isValid := isValid s; isDeleted := b;
     log := log s |}.

Definition record (ev : event) (s : Store) : Store :=
  {| heap := heap s; typeKeys := typeKeys s; parentTypeKeys := parentTypeKeys s;
     errors := errors s; isValid := isValid s; isDeleted := isDeleted s;
     log := log s ++ [ev] |}.

(** ** The record's collaborators *)

(** Modelled from the spec: the record's state machine is Ember Data's.  A
    signal is recorded; [becameValid] makes the record valid again, and the
    other signals sent by the mixin leave [isValid] and [isDeleted] alone. *)
Definition send (signal : string) : M unit :=
  modify (fun s =>
    let s' := record (Sent signal) s in
    if String.eqb signal "becameValid" then set_isValid true s' else s').

(** Modelled from the spec: raising [becameInvalid] on the Error Collection
    moves the record to its invalid state. *)
Definition errors_trigger (signal : string) : M unit :=
  modify (fun s =>
    let s' := record (Triggered signal) s in
    if String.eqb signal "becameInvalid" then set_isValid false s' else s').

(** [errors._clear()]: every entry is removed. *)
Definition errors_clear : M unit := modify (set_errors []).

(** [errors._add(name, message)], or [errors.add] where [_add] is missing:
    the message is appended under the field's name. *)
Definition errors_add (name message : string) : M unit :=
  modify (fun s => set_errors (errors s ++ [(name, message)]) s).

(** ** Ember's assertion and run loop *)

(** [Ember.assert(desc, test)]: a development build throws when the test
    fails; a production build strips the check, and the call does nothing. *)
Definition Ember_assert (E : Imports) (desc : string) (test : bool) : M unit :=
  if Ember_debug E && negb test then throw (AssertionFailed desc) else ret tt.

(** [Ember.run(target, method, ...args)]: the method is called inside a run
    loop.  What it throws goes to Ember's error dispatch, which throws it
    again in testing mode; otherwise the error is handed to [Ember.onerror],
    or to the console when there is none, and [Ember.run] returns. *)
Definition Ember_run (E : Imports) (method : M unit) : M unit := fun s =>
  match method s with
  | (Return _, s') => (Return tt, s')
  | (Throw e, s') =>
      if Ember_testing E then (Throw e, s')
      else (Return tt, record (Reported e) s')
  end.

(** ** The mixin *)

(** [Ember.getOwner(obj)] where Ember has it, [obj.container] otherwise:
    the record's container either way. *)
Definition getOwner (obj : Model) : Container := container obj.

Definition lookupMessageResolver (container : Container)
  : option MessageResolver :=
  or_else
    (container_lookup container "resolver:validation-message")
    (container_lookup container
       "ember-cli-data-validation@resolver:validation-message").

(** [messageResolver.resolveMessage('error')] dereferences the result of the
    lookup, which is [undefined] when both names miss. *)
Definition createValidationError (E : Imports) (model : Model)
  : M ValidationError :=
  let messageResolver := lookupMessageResolver (getOwner model) in
  errors <- read errors ;;
  match messageResolver with
  | None =>
      throw (TypeError "Cannot read property 'resolveMessage' of undefined")
  | Some messageResolver =>
      let message := resolveMessage messageResolver "error" in
      let message :=
        if isEmpty message then defaultMessages_error E
        else default "" message in
      ret {| message := message; error_errors := errors |}
  end.

(** Both [_lookupFactory] and [lookupFactory] are the container's factory
    lookup. *)
Definition lookupValidtorFactory (container : Container) (key : string)
  : option ValidatorClass :=
  or_else
    (container_lookupFactory container ("validator:" +:+ key))
    (container_lookupFactory container
       ("ember-cli-data-validation@validator:" +:+ key)).

Definition resolver_val (r : option MessageResolver) : val :=
  match r with
  | Some r => VObject (resolver_ref r)
  | None => VUndefined
  end.

(** [typeof validatorClass === 'function'] on the result of the factory
    lookup. *)
Definition is_function (c : option ValidatorClass) : bool :=
  match c with
  | Some _ => true
  | None => false
  end.

(** The object literal [{}] made for a shorthand value is local to the call:
    [create] copies its properties and no reference to it remains, so it is
    represented by its property list.  A value whose [typeof] is ["object"]
    is merged into where it lives; for [null] the assignment inside
    [Ember.merge] throws.  Where the assertion of line 48 is stripped and
    the class is missing, the assignment of line 64 throws. *)
Definition lookupValidator (E : Imports) (container : Container) (obj : Rule)
  : M Validator :=
  let typeKey := type obj in
  let validatorClass := lookupValidtorFactory container typeKey in
  Ember_assert E ("Could not find Validator `" +:+ typeKey +:+ "`.")
    (is_function validatorClass) ;;
  let messageResolver := lookupMessageResolver container in
  let updates :=
    [("attribute", VObject (attr_ref (attribute obj)));
     ("messageResolver", resolver_val messageResolver)] in
  config <-
    (if negb (String.eqb (typeof (value obj)) "object")
     then ret (Ember_merge [(type obj, value obj)] updates)
     else match value obj with
          | VObject l =>
              modify (fun s =>
                set_heap (<[l := Ember_merge (deref (heap s) l) updates]>
                            (heap s)) s) ;;
              read (fun s => deref (heap s) l)
          | _ => throw (TypeError "Cannot set property 'attribute' of null")
          end) ;;
  match validatorClass with
  | None => throw (TypeError "Cannot set property 'typeKey' of undefined")
  | Some validatorClass =>
      modify (fun s =>
        set_typeKeys (<[class_id validatorClass := camelize E typeKey]>
                        (typeKeys s)) s) ;;
      ret {| vclass := validatorClass; vprops := config |}
  end.

(** Lines 97 to 109 of the file: one descriptor per key of each rule object
    of the array. *)
Definition descriptors (attribute : Attribute) (validations : list props)
  : list Rule :=
  flat_map (fun validation =>
    map (fun name =>
           {| type := name;
              value := get_prop name validation;
              attribute := attribute |})
        (Object_keys validation))
    validations.

(** [[validations]] (line 94), reached with a rule object only: absent
    metadata has returned at line 90, and an array is an array. *)
Definition array_of (validations : Validation) : Validation :=
  match validations with
  | OneRule r => RuleList [r]
  | _ => validations
  end.

(** A rule object that [Ember.isArray] takes for an array reaches line 99 as
    it is; it has no [forEach] method, and the call throws. *)
Definition validatorsFor (E : Imports) (this : Model) (attribute : Attribute)
  : M (list Validator) :=
  let validations := validation attribute in
  if isEmpty validations then ret []
  else
    let validations :=
      if negb (isArray validations) then array_of validations
      else validations in
    match validations with
    | RuleList validations =>
        let validators := descriptors attribute validations in
        mapM (fun validator => lookupValidator E (getOwner this) validator)
             validators
    | _ => throw (TypeError "validations.forEach is not a function")
    end.

Definition _addError (name : string) (result : val) : M unit :=
  match result with
  | VStr message => errors_add name message      (* typeof result === 'string' *)
  | _ => ret tt
  end.

Definition _validateAttribute (E : Imports) (this : Model) (attribute : Attribute)
  : M unit :=
  validators <- validatorsFor E this attribute ;;
  let name := attrName attribute in
  let parentTypeKey :=
    js_or (constructor_modelName this) (constructor_typeKey this) in
  modify (fun s =>
    set_parentTypeKeys (<[attr_ref attribute := parentTypeKey]>
                          (parentTypeKeys s)) s) ;;
  forEach validators (fun validator =>
    stamp <- read (fun s => typeKeys s !! class_id (vclass validator)) ;;
    let result :=
      run (vclass validator)
          {| this_typeKey := stamp;
             this_props := vprops validator;
             arg_name := name;
             arg_value := get this name;
             arg_attribute := attribute;
             arg_parentTypeKey := parentTypeKey;
             arg_model := get this |} in
    modify (record (Validated (class_id (vclass validator)) name)) ;;
    _addError name result).

(** [eachAttribute] and [eachRelationship] visit the descriptors in order;
    each is validated inside a run loop of its own. *)
Definition validate (E : Imports) (this : Model) (willCommit : bool) : M bool :=
  valid <- read isValid ;;
  (if negb valid then send "becameValid" ;; errors_clear else ret tt) ;;
  deleted <- read isDeleted ;;
  if deleted then ret true
  else
    (if willCommit then send "willCommit" else ret tt) ;;
    forEach (attributes this) (fun attribute =>
      Ember_run E (_validateAttribute E this attribute)) ;;
    forEach (relationships this) (fun relationship =>
      Ember_run E (_validateAttribute E this relationship)) ;;
    isValid <- read (fun s => isEmpty (errors s)) ;;
    (if negb isValid
     then send "becomeDirty" ;; errors_trigger "becameInvalid"
     else ret tt) ;;
    ret isValid.

(** [this._super()] is the inherited [save], the commit; the mixin only
    decides whether it is reached. *)
Definition save (E : Imports) (this : Model) (validate_opt : bool) : M outcome :=
  if negb validate_opt then ret Super
  else
    ok <- validate E this true ;;
    if ok then ret Super
    else
      reason <- createValidationError E this ;;
      ret (Reject reason).

(** ** Views used by the statements *)

(** The validator invocations recorded in a log, in order. *)
Definition invocations (l : list event) : list (fid * string) :=
  flat_map (fun ev =>
    match ev with
    | Validated c f => [(c, f)]
    | _ => []
    end) l.

(** The rule objects a declaration holds, in declaration order. *)
Definition declared (v : Validation) : list props :=
  match v with
  | NoValidation => []
  | OneRule r => [r]
  | RuleList rs => rs
  end.

(** The declaration is read as one of the three declared shapes: a single
    rule object is neither empty for [Ember.isEmpty] nor an array for
    [Ember.isArray]. *)
Definition plain (v : Validation) : bool :=
  match v with
  | OneRule _ => negb (isEmpty v) && negb (isArray v)
  | _ => true
  end.

(** Line 99 is not reached, or it is reached with an array. *)
Definition iterable (v : Validation) : bool :=
  match v with
  | OneRule _ => isEmpty v || negb (isArray v)
  | _ => true
  end.

(** The descriptors that [validatorsFor] pushes on [validators] (lines 86
    to 109): none when it returns at line 90, and none when line 99
    throws. *)
Definition ruleDescriptors (a : Attribute) : list Rule :=
  if isEmpty (validation a) then []
  else
    match validation a with
    | NoValidation => []
    | OneRule r => if isArray (validation a) then [] else descriptors a [r]
    | RuleList rs => descriptors a rs
    end.

(** The failure of line 99 on a rule object taken for an array. *)
Definition not_iterable : error :=
  TypeError "validations.forEach is not a function".

(** The failure of the assertion of line 48. *)
Definition not_found (typeKey : string) : error :=
  AssertionFailed ("Could not find Validator `" +:+ typeKey +:+ "`.").

(** What a field goes through in [validate]. *)
Definition field_pass (E : Imports) (this : Model) (a : Attribute) : M unit :=
  Ember_run E (_validateAttribute E this a).

(** The store after the first step of [validate]: a record that is not valid
    is signalled [becameValid] and its errors are cleared. *)
Definition reset (s : Store) : Store :=
  if isValid s then s
  else set_errors [] (set_isValid true (record (Sent "becameValid") s)).

(** The store after the [willCommit] signal, when one is sent. *)
Definition committing (willCommit : bool) (s : Store) : Store :=
  if willCommit then record (Sent "willCommit") s else s.

(** The store at the end of a pass over the fields: a record with errors is
    signalled [becomeDirty] and its Error Collection raises [becameInvalid]. *)
Definition concluded (s : Store) : Store :=
  if isEmpty (errors s) then s
  else set_isValid false
         (record (Triggered "becameInvalid") (record (Sent "becomeDirty") s)).

(** What [Ember.merge] adds to a configuration object in [lookupValidator]. *)
Definition updates_of (container : Container) (obj : Rule) : props :=
  [("attribute", VObject (attr_ref (attribute obj)));
   ("messageResolver", resolver_val (lookupMessageResolver container))].

(** The entries a list of validator results adds under a field. *)
Definition failures (name : string) (results : list val) : Errors :=
  flat_map (fun r =>
    match r with
    | VStr m => [(name, m)]
    | _ => []
    end) results.

(** What a validator answers once the classes carry the stamps [stamps]. *)
Definition result_of (this : Model) (a : Attribute) (stamps : gmap fid string)
  (v : Validator) : val :=
  run (vclass v)
      {| this_typeKey := stamps !! class_id (vclass v);
         this_props := vprops v;
         arg_name := attrName a;
         arg_value := get this (attrName a);
         arg_attribute := a;
         arg_parentTypeKey :=
           js_or (constructor_modelName this) (constructor_typeKey this);
         arg_model := get this |}.

(** The store after [_validateAttribute] has run the validators [vs] it
    created for [a] in store [s]. *)
Definition after_validators (this : Model) (a : Attribute)
  (vs : list Validator) (s : Store) : Store :=
  {| heap := heap s;
     typeKeys := typeKeys s;
     parentTypeKeys :=
       <[attr_ref a := js_or (constructor_modelName this)
                             (constructor_typeKey this)]> (parentTypeKeys s);
     errors := errors s
               ++ failures (attrName a) (map (result_of this a (typeKeys s)) vs);
     isValid := isValid s;
     isDeleted := isDeleted s;
     log := log s
            ++ map (fun v => Validated (class_id (vclass v)) (attrName a)) vs |}.

(** A monadic computation keeps a relation between the store it starts from
    and the store it ends in, whether it returns or throws. *)
Definition preserves (R : Store -> Store -> Prop) {A} (m : M A) : Prop :=
  forall s r s', m s = (r, s') -> R s s'.

(** No object loses a property. *)
Definition grows (s s' : Store) : Prop :=
  forall k l, k ∈ Object_keys (deref (heap s) l) ->
              k ∈ Object_keys (deref (heap s') l).

(** Everything but the heap and the class stamps is untouched. *)
Definition same_record (s s' : Store) : Prop :=
  errors s' = errors s /\ log s' = log s /\ isValid s' = isValid s /\
  isDeleted s' = isDeleted s /\ parentTypeKeys s' = parentTypeKeys s.

(** Two heaps that differ at most in what [lookupValidator] merges: every
    object reads the same once [attribute] and [messageResolver] are
    assigned. *)
Definition heap_sim (h h' : gmap loc props) : Prop :=
  forall l v1 v2,
    Ember_merge (deref h l) [("attribute", v1); ("messageResolver", v2)]
    = Ember_merge (deref h' l) [("attribute", v1); ("messageResolver", v2)].

Definition same_objects (s s' : Store) : Prop := heap_sim (heap s) (heap s').

(** The lifecycle flags are untouched. *)
Definition same_flags (s s' : Store) : Prop :=
  isValid s' = isValid s /\ isDeleted s' = isDeleted s.

(** A record that is flagged valid holds no error. *)
Definition consistent (s : Store) : Prop := isValid s = true -> errors s = [].

(** The field names under which a returning pass over [fs] invokes
    validators, in order: each field once per rule descriptor. *)
Definition expected_runs (fs : list Attribute) : list string :=
  flat_map (fun a => replicate (length (ruleDescriptors a)) (attrName a)) fs.

(** The event is the invocation of some validator on the field [name]. *)
Definition runs_on (ev : event) (name : string) : Prop :=
  exists c, ev = Validated c name.

(** The event is a validator invocation or an error report. *)
Definition field_event (ev : event) : Prop :=
  (exists c f, ev = Validated c f) \/ (exists e, ev = Reported e).

(** What the pass over the fields may do to the record: append errors,
    append validator invocations and error reports to the log, and leave
    the flags alone. *)
Definition pass_step (s s' : Store) : Prop :=
  same_flags s s' /\
  (exists N, errors s' = errors s ++ N) /\
  (exists L, log s' = log s ++ L /\ Forall field_event L).

(** The pass never takes the stamp [v] off a field that carries it. *)
Definition keeps_stamp (v : val) (s s' : Store) : Prop :=
  forall l, parentTypeKeys s !! l = Some v -> parentTypeKeys s' !! l = Some v.

(** A rule can be instantiated: its type resolves and its value is not
    [null]. *)
Definition instantiable (container : Container) (d : Rule) : Prop :=
  (exists cls, lookupValidtorFactory container (type d) = Some cls) /\
  value d <> VNull.

(** The validators of a field can all be created. *)
Definition creatable (this : Model) (a : Attribute) : Prop :=
  iterable (validation a) = true /\
  forall d, d ∈ ruleDescriptors a -> instantiable (getOwner this) d.

(** What one field adds to the log of a pass: a validator invocation per
    rule when its validators can be created, one error report otherwise. *)
Definition field_trace (this : Model) (a : Attribute) (L : list event) : Prop :=
  (creatable this a /\
   Forall2 runs_on L (replicate (length (ruleDescriptors a)) (attrName a))) \/
  (~ creatable this a /\ exists e, L = [Reported e]).

(** The store in which [lookupValidator] has merged into the rule's value. *)
Definition merged (container : Container) (obj : Rule) (s : Store) : Store :=
  match value obj with
  | VObject l =>
      set_heap (<[l := Ember_merge (deref (heap s) l) (updates_of container obj)]>
                  (heap s)) s
  | _ => s
  end.

(** The configuration [lookupValidator] hands to [create]. *)
Definition config_of (container : Container) (obj : Rule) (s : Store) : props :=
  match value obj with
  | VObject l => Ember_merge (deref (heap s) l) (updates_of container obj)
  | v => Ember_merge [(type obj, v)] (updates_of container obj)
  end.

(** The classes of the validators a call has created. *)
Definition classes_of {A} (r : result A) (f : A -> list fid) : list fid :=
  match r with
  | Return a => f a
  | Throw _ => []
  end.

(** ** Scenarios

    Concrete collaborators used to run the definitions. *)

(** The rule-type keys of the scenarios are already camel case.  A test
    run of a development build: a failed assertion throws, and the run loop
    throws it again. *)
Definition imports0 : Imports :=
  {| camelize := fun key => key;
     defaultMessages_error := "Model is not valid.";
     Ember_debug := true;
     Ember_testing := true |}.

(** A running application on a development build: what is thrown inside a
    run loop is reported, not thrown again. *)
Definition imports_app : Imports :=
  {| camelize := fun key => key;
     defaultMessages_error := "Model is not valid.";
     Ember_debug := true;
     Ember_testing := false |}.


(** [presence]: fails on a missing or blank value. *)
Definition presence : ValidatorClass :=
  {| class_id := 1;
     run := fun c =>
       match arg_value c with
       | VUndefined | VNull | VStr "" => VStr "can't be blank"
       | _ => VUndefined
       end |}.

(** [numeric]: accepts the natural numbers only. *)
Definition numeric : ValidatorClass :=
  {| class_id := 2;
     run := fun c =>
       match arg_value c with
       | VNum n => if (0 <=? n)%Z then VUndefined else VStr "must be a number"
       | _ => VStr "must be a number"
       end |}.

(** [range]: compares with the [min] of its configuration. *)
Definition range : ValidatorClass :=
  {| class_id := 3;
     run := fun c =>
       match arg_value c, get_prop "min" (this_props c) with
       | VNum n, VNum lo => if (lo <=? n)%Z then VUndefined else VStr "is too small"
       | _, _ => VUndefined
       end |}.

(** [odd]: a validator that answers with something that is not a string. *)
Definition odd : ValidatorClass :=
  {| class_id := 4; run := fun _ => VBool false |}.

Definition factories (name : string) : option ValidatorClass :=
  if String.eqb name "validator:presence" then Some presence
  else if String.eqb name "ember-cli-data-validation@validator:numeric" then Some numeric
  else if String.eqb name "validator:range" then Some range
  else if String.eqb name "validator:odd" then Some odd
  else None.

Definition resolver0 : MessageResolver :=
  {| resolver_ref := 100; resolveMessage := fun _ => None |}.

(** The addon's resolver, registered under the vendored name. *)
Definition container0 : Container :=
  {| container_lookup := fun name =>
       if String.eqb name "ember-cli-data-validation@resolver:validation-message"
       then Some resolver0 else None;
     container_lookupFactory := factories |}.

(** A container in which no message resolver is registered. *)
Definition container_bare : Container :=
  {| container_lookup := fun _ => None;
     container_lookupFactory := factories |}.

Definition store0 : Store :=
  {| heap := ∅; typeKeys := ∅; parentTypeKeys := ∅; errors := [];
     isValid := true; isDeleted := false; log := [] |}.

(** A deleted record that is still flagged invalid by an earlier failure. *)
Definition deleted_invalid_store : Store :=
  set_isDeleted true (set_isValid false (set_errors [("name", "is taken")] store0)).

(** A record flagged valid whose Error Collection holds an entry. *)
Definition stale_store : Store := set_errors [("name", "is taken")] store0.

Definition name_attr : Attribute :=
  {| field_name := "name"; attr_ref := 10;
     validation := OneRule [("presence", VBool true)] |}.

(** A field whose rule type has no validator registered under either name. *)
Definition nick_attr : Attribute :=
  {| field_name := "nick"; attr_ref := 12;
     validation := OneRule [("unknown", VBool true)] |}.

(** A field checked by a validator that never answers with a string. *)
Definition flag_attr : Attribute :=
  {| field_name := "flag"; attr_ref := 13;
     validation := OneRule [("odd", VBool true)] |}.

(** A shorthand rule whose value is [null]. *)
Definition null_rule : Rule :=
  {| type := "presence"; value := VNull; attribute := name_attr |}.

(** [age: attr('number', {validation: [{numeric: true}, {range: {min: 0}}]})];
    the configuration object [{min: 0}] lives at location 20. *)
Definition age_attr : Attribute :=
  {| field_name := "age"; attr_ref := 11;
     validation := RuleList [[("numeric", VBool true)]; [("range", VObject 20)]] |}.

Definition age_store : Store := set_heap {[ 20 := [("min", VNum 0)] ]} store0.

Definition person (c : Container) (fields : list Attribute) : Model :=
  {| container := c;
     get := fun name =>
       if String.eqb name "age" then VNum (-5)
       else if String.eqb name "name" then VStr ""
       else VUndefined;
     constructor_modelName := VStr "person";
     constructor_typeKey := VUndefined;
     attributes := fields;
     relationships := [] |}.

(** A field that declares no validation. *)
Definition plain_attr : Attribute :=
  {| field_name := "note"; attr_ref := 14; validation := NoValidation |}.

Definition resolver_app : MessageResolver :=
  {| resolver_ref := 101;
     resolveMessage := fun key =>
       if String.eqb key "error" then Some "Please check the form." else None |}.

(** An application that registers a resolver and validators of its own
    beside the addon's: [presence] under both namespaces, and the class
    [range] under the rule types [range] and [min]. *)
Definition container_app : Container :=
  {| container_lookup := fun name =>
       if String.eqb name "resolver:validation-message" then Some resolver_app
       else if String.eqb name
                 "ember-cli-data-validation@resolver:validation-message"
            then Some resolver0
       else None;
     container_lookupFactory := fun name =>
       if String.eqb name "validator:presence" then Some presence
       else if String.eqb name "ember-cli-data-validation@validator:presence"
            then Some numeric
       else if String.eqb name "validator:range" then Some range
       else if String.eqb name "validator:min" then Some range
       else if String.eqb name "validator:attribute" then Some odd
       else None |}.

(** [size: attr('number', {validation: [{range: {min: 0}}, {min: 3}]})]: both
    rule types resolve to the class [range]. *)
Definition size_attr : Attribute :=
  {| field_name := "size"; attr_ref := 15;
     validation := RuleList [[("range", VObject 20)]; [("min", VNum 3)]] |}.

(** [alias: attr('string', {validation: {presence: true, unknown: true}})]:
    a rule that resolves followed by one that does not. *)
Definition alias_attr : Attribute :=
  {| field_name := "alias"; attr_ref := 16;
     validation := OneRule [("presence", VBool true); ("unknown", VBool true)] |}.

(** [title: attr('string', {validation: {presence: true, length: {min: 3}}})]:
    a single rule object with a rule named [length]; the configuration
    object [{min: 3}] lives at location 22. *)
Definition title_rule : props :=
  [("presence", VBool true); ("length", VObject 22)].

Definition title_attr : Attribute :=
  {| field_name := "title"; attr_ref := 17; validation := OneRule title_rule |}.

Definition title_store : Store := set_heap {[ 22 := [("min", VNum 3)] ]} store0.

(** The same rule object declared inside a list:
    [title: attr('string', {validation: [{presence: true, length: {min: 3}}]})]. *)
Definition title_list_attr : Attribute :=
  {| field_name := "title"; attr_ref := 17; validation := RuleList [title_rule] |}.

(** [length]: compares the length of a string with the [min] of its
    configuration. *)
Definition length_class : ValidatorClass :=
  {| class_id := 5;
     run := fun c =>
       match arg_value c, get_prop "min" (this_props c) with
       | VStr v, VNum lo =>
           if (lo <=? Z.of_nat (String.length v))%Z then VUndefined
           else VStr "is too short"
       | _, _ => VUndefined
       end |}.

(** The container of the addon with a validator registered for the rule
    type [length]. *)
Definition container_length : Container :=
  {| container_lookup := container_lookup container0;
     container_lookupFactory := fun name =>
       if String.eqb name "validator:length" then Some length_class
       else factories name |}.


(** ** Properties of objects *)

Lemma typeof_string v : typeof v = "string" <-> exists m, v = VStr m.
Proof.
  split; [ | intros [m ->]; reflexivity ].
  destruct v; simpl; try discriminate. eauto.
Qed.

Lemma typeof_object v :
  typeof v = "object" <-> v = VNull \/ exists l, v = VObject l.
Proof.
  split.
  - destruct v; simpl; try discriminate; eauto.
  - intros [-> | [l ->]]; reflexivity.
Qed.

Lemma get_prop_set_prop_eq k v o : get_prop k (set_prop k v o) = v.
Proof.
  induction o as [| [k' v'] o IH]; simpl.
  - by rewrite String.eqb_refl.
  - destruct (String.eqb k k') eqn:Hk; simpl; by rewrite Hk.
Qed.

Lemma get_prop_set_prop_ne k k' v o :
  k <> k' -> get_prop k (set_prop k' v o) = get_prop k o.
Proof.
  intros Hne. induction o as [| [k1 v1] o IH]; simpl.
  - apply String.eqb_neq in Hne. by rewrite Hne.
  - destruct (String.eqb k' k1) eqn:Hk; simpl.
    + apply String.eqb_eq in Hk as ->.
      apply String.eqb_neq in Hne. by rewrite Hne.
    + by rewrite IH.
Qed.

Lemma keys_set_prop_in k v o :
  k ∈ Object_keys o -> Object_keys (set_prop k v o) = Object_keys o.
Proof.
  unfold Object_keys. induction o as [| [k' v'] o IH]; simpl; intros Hin.
  - by apply elem_of_nil in Hin.
  - destruct (String.eqb k k') eqn:Hk; simpl; [done |].
    f_equal. apply IH. apply elem_of_cons in Hin as [-> | Hin]; [| done].
    by rewrite String.eqb_refl in Hk.
Qed.

Lemma keys_set_prop_notin k v o :
  k ∉ Object_keys o -> Object_keys (set_prop k v o) = Object_keys o ++ [k].
Proof.
  unfold Object_keys. induction o as [| [k' v'] o IH]; simpl; intros Hin; [done |].
  destruct (String.eqb k k') eqn:Hk; simpl.
  - apply String.eqb_eq in Hk as ->. exfalso. apply Hin. apply elem_of_cons; auto.
  - f_equal. apply IH. intros Hin'. apply Hin. apply elem_of_cons; auto.
Qed.

(** Assigning a property never removes one. *)
Lemma keys_set_prop_mono k k' v o :
  k ∈ Object_keys o -> k ∈ Object_keys (set_prop k' v o).
Proof.
  intros Hin. destruct (decide (k' ∈ Object_keys o)) as [Hk | Hk].
  - by rewrite keys_set_prop_in.
  - rewrite keys_set_prop_notin by done. apply elem_of_app; auto.
Qed.

Lemma keys_set_prop_self k v o : k ∈ Object_keys (set_prop k v o).
Proof.
  destruct (decide (k ∈ Object_keys o)) as [Hk | Hk].
  - by rewrite keys_set_prop_in.
  - rewrite keys_set_prop_notin by done. apply elem_of_app. right. by apply list_elem_of_singleton.
Qed.

(** A second assignment to the same property overrides the first. *)
Lemma set_prop_set_prop k v v' o :
  set_prop k v (set_prop k v' o) = set_prop k v o.
Proof.
  induction o as [| [k' w] o IH]; simpl.
  - by rewrite String.eqb_refl.
  - destruct (String.eqb k k') eqn:Hk; simpl; rewrite Hk; [done |].
    by rewrite IH.
Qed.

(** Assignments to two properties commute once the first is present. *)
Lemma set_prop_comm k1 k2 v1 v2 o :
  k1 <> k2 -> k1 ∈ Object_keys o ->
  set_prop k1 v1 (set_prop k2 v2 o) = set_prop k2 v2 (set_prop k1 v1 o).
Proof.
  intros Hne. unfold Object_keys.
  induction o as [| [k w] o IH]; simpl; intros Hin.
  - by apply elem_of_nil in Hin.
  - destruct (String.eqb k2 k) eqn:H2, (String.eqb k1 k) eqn:H1; simpl;
      rewrite ?H1, ?H2; try done.
    + apply String.eqb_eq in H1, H2. congruence.
    + f_equal. apply IH. apply elem_of_cons in Hin as [-> | Hin]; [| done].
      by rewrite String.eqb_refl in H1.
Qed.

(** Merging the same two keys again forgets the earlier merge. *)
Lemma merge_absorb k1 k2 v1 v2 w1 w2 o :
  k1 <> k2 ->
  Ember_merge (Ember_merge o [(k1, w1); (k2, w2)]) [(k1, v1); (k2, v2)]
  = Ember_merge o [(k1, v1); (k2, v2)].
Proof.
  intros Hne. unfold Ember_merge. simpl.
  rewrite (set_prop_comm k1 k2 v1 w2 (set_prop k1 w1 o))
    by (done || apply keys_set_prop_self).
  by rewrite !set_prop_set_prop.
Qed.

(** ** Running the monad *)

Lemma bind_Return {A B} (m : M A) (k : A -> M B) s a s' :
  m s = (Return a, s') -> (x <- m ;; k x) s = k a s'.
Proof. intros H. unfold bind. by rewrite H. Qed.

Lemma bind_Throw {A B} (m : M A) (k : A -> M B) s e s' :
  m s = (Throw e, s') -> (x <- m ;; k x) s = (Throw e, s').
Proof. intros H. unfold bind. by rewrite H. Qed.

Lemma mapM_length {A B} (f : A -> M B) xs ys s s' :
  mapM f xs s = (Return ys, s') -> length ys = length xs.
Proof.
  revert ys s. induction xs as [| a xs IH]; simpl; intros ys s.
  - unfold ret. by intros [= <- _].
  - unfold bind at 1. destruct (f a s) as [[b | e] s1]; [| done].
    unfold bind at 1. destruct (mapM f xs s1) as [[bs | e] s2] eqn:Hm; [| done].
    unfold ret. intros [= <- <-]. simpl. f_equal. by eapply IH.
Qed.


(** ** Relations kept by the monadic operations *)

Section Preserves.
Context (R : Store -> Store -> Prop) `{!PreOrder R}.

Lemma preserves_ret {A} (a : A) : preserves R (ret a).
Proof. intros s r s' [= _ <-]. reflexivity. Qed.

Lemma preserves_throw {A} e : preserves R (@throw A e).
Proof. intros s r s' [= _ <-]. reflexivity. Qed.

Lemma preserves_read {A} (f : Store -> A) : preserves R (read f).
Proof. intros s r s' [= _ <-]. reflexivity. Qed.

Lemma preserves_modify f : (forall s, R s (f s)) -> preserves R (modify f).
Proof. intros Hf s r s' [= _ <-]. apply Hf. Qed.

Lemma preserves_bind {A B} (m : M A) (k : A -> M B) :
  preserves R m -> (forall a, preserves R (k a)) -> preserves R (x <- m ;; k x).
Proof.
  intros Hm Hk s r s'. unfold bind.
  destruct (m s) as [[a | e] s1] eqn:Hms.
  - intros Hks. transitivity s1; [by eapply Hm | by eapply Hk].
  - intros [= _ <-]. by eapply Hm.
Qed.

Lemma preserves_mapM {A B} (f : A -> M B) xs :
  (forall x, preserves R (f x)) -> preserves R (mapM f xs).
Proof.
  intros Hf. induction xs as [| x xs IH]; simpl.
  - apply preserves_ret.
  - apply preserves_bind; [apply Hf |]. intros y.
    apply preserves_bind; [apply IH |]. intros ys. apply preserves_ret.
Qed.

Lemma preserves_forEach {A} (f : A -> M unit) xs :
  (forall x, preserves R (f x)) -> preserves R (forEach xs f).
Proof.
  intros Hf. induction xs as [| x xs IH]; simpl.
  - apply preserves_ret.
  - apply preserves_bind; [apply Hf | intros _; apply IH].
Qed.

Lemma preserves_if {A} (b : bool) (m1 m2 : M A) :
  preserves R m1 -> preserves R m2 -> preserves R (if b then m1 else m2).
Proof. by destruct b. Qed.
End Preserves.

Global Instance grows_preorder : PreOrder grows.
Proof.
  split.
  - intros s k l. done.
  - intros s1 s2 s3 H12 H23 k l Hk. by apply H23, H12.
Qed.

Global Instance same_record_preorder : PreOrder same_record.
Proof.
  split.
  - intros s. by repeat split.
  - intros s1 s2 s3 (A1 & A2 & A3 & A4 & A5) (B1 & B2 & B3 & B4 & B5).
    repeat split; congruence.
Qed.

(** ** Descriptor resolution *)

(** [validatorsFor] in one step: the descriptors it pushes are instantiated
    in order, unless line 99 throws. *)
Lemma validatorsFor_eq E this a s :
  validatorsFor E this a s =
  if iterable (validation a)
  then mapM (lookupValidator E (getOwner this)) (ruleDescriptors a) s
  else (Throw not_iterable, s).
Proof.
  unfold validatorsFor, ruleDescriptors, iterable.
  destruct (validation a) as [| r | rs] eqn:Hv; [reflexivity | |].
  - destruct (isEmpty (OneRule r)); [reflexivity |].
    destruct (isArray (OneRule r)); reflexivity.
  - destruct (isEmpty (RuleList rs)); reflexivity.
Qed.

Lemma plain_iterable v : plain v = true -> iterable v = true.
Proof.
  destruct v as [| r | rs]; simpl; try done.
  intros H. apply andb_true_iff in H as [_ H].
  apply orb_true_iff. by right.
Qed.

Lemma ruleDescriptors_declared a :
  plain (validation a) = true ->
  ruleDescriptors a = descriptors a (declared (validation a)).
Proof.
  unfold ruleDescriptors, plain.
  destruct (validation a) as [| r | [| r rs]]; try reflexivity.
  intros H. apply andb_true_iff in H as [H1 H2].
  apply negb_true_iff in H1, H2. by rewrite H1, H2.
Qed.

(** Whatever the shape of the declaration, a pushed descriptor comes from a
    key of a declared rule object. *)
Lemma ruleDescriptors_sound a d :
  d ∈ ruleDescriptors a ->
  attribute d = a /\
  exists r, r ∈ declared (validation a) /\ type d ∈ Object_keys r /\
            value d = get_prop (type d) r.
Proof.
  assert (Hdesc : forall rs, d ∈ descriptors a rs ->
            attribute d = a /\
            exists r, r ∈ rs /\ type d ∈ Object_keys r /\
                      value d = get_prop (type d) r).
  { intros rs Hd. apply list_elem_of_In, in_flat_map in Hd as (r & Hr & Hd).
    apply in_map_iff in Hd as (k & <- & Hk). simpl. split; [done |].
    exists r. repeat split; by try apply list_elem_of_In. }
  unfold ruleDescriptors.
  destruct (isEmpty (validation a)); [intros H; by apply elem_of_nil in H |].
  destruct (isArray (validation a));
    destruct (validation a) as [| r | rs]; unfold declared;
    try apply Hdesc; intros H; by apply elem_of_nil in H.
Qed.


Lemma pairs_of_keys (r : props) :
  NoDup (Object_keys r) ->
  map (fun k => (k, get_prop k r)) (Object_keys r) = r.
Proof.
  unfold Object_keys. induction r as [| [k v] r IH]; simpl; intros Hnd; [done |].
  apply NoDup_cons in Hnd as [Hk Hnd].
  rewrite String.eqb_refl. f_equal.
  rewrite <- (IH Hnd) at 2.
  apply map_ext_in. intros k' Hin.
  destruct (String.eqb k' k) eqn:Heq; [| done].
  apply String.eqb_eq in Heq as ->.
  exfalso. apply Hk. by apply list_elem_of_In.
Qed.

(** A rule object with a [length] entry that is not [undefined] is an array
    for [Ember.isArray], whatever else it holds, unless it has a truthy
    [setInterval]. *)
Lemma isArray_length r :
  get_prop "length" r <> VUndefined ->
  truthy (get_prop "setInterval" r) = false ->
  isArray (OneRule r) = true.
Proof.
  intros Hlen Hset. unfold isArray. rewrite Hset.
  by rewrite bool_decide_eq_false_2.
Qed.

(** Such a rule object, when [Ember.isEmpty] does not take it for empty, is
    not wrapped, and [validatorsFor] throws on it without looking at any
    rule. *)
Lemma validatorsFor_not_iterable E this a s :
  iterable (validation a) = false ->
  validatorsFor E this a s = (Throw not_iterable, s) /\
  ruleDescriptors a = [] /\
  exists r, validation a = OneRule r /\
            isEmpty (validation a) = false /\ isArray (validation a) = true.
Proof.
  intros Hit. rewrite validatorsFor_eq, Hit. split; [done |].
  unfold ruleDescriptors. unfold iterable in Hit.
  destruct (validation a) as [| r | rs]; try done.
  apply orb_false_iff in Hit as [He Ha]. apply negb_false_iff in Ha.
  rewrite He, Ha. split; [done |]. by exists r.
Qed.

(** C5, at the input on which it fails: the field [title] declares the
    single rule object [{presence: true, length: {min: 3}}], and a validator
    is registered for each of its two rule types.  [Ember.isArray] answers
    [true] for the rule object, so it is not wrapped in a one-element list:
    [validatorsFor] throws at [validations.forEach], resolves no descriptor
    and leaves the store as it was.  The same rule object inside a list
    resolves to the two descriptors of its two keys, and its two validators
    are created. *)
Lemma rule_object_with_length_is_not_wrapped :
  isEmpty (validation title_attr) = false /\
  isArray (validation title_attr) = true /\
  validatorsFor imports0 (person container_length [title_attr]) title_attr
    title_store
  = (Throw (TypeError "validations.forEach is not a function"), title_store) /\
  ruleDescriptors title_attr = [] /\
  map (fun d => (type d, value d)) (ruleDescriptors title_list_attr)
  = [("presence", VBool true); ("length", VObject 22)] /\
  exists vs s',
    validatorsFor imports0 (person container_length [title_list_attr])
      title_list_attr title_store
    = (Return vs, s') /\
    map (fun v => class_id (vclass v)) vs = [1; 5].
Proof.
  repeat split.
  eexists _, _. split; [vm_compute; reflexivity | reflexivity].
Qed.

(** Rule-descriptor resolution on a declaration that is read as absent, as a
    single rule object or as a list of rule objects: one descriptor per
    declared (rule object, key) pair, in declaration order and then key
    order.  The types are the keys of the declared rule objects laid end to
    end, each value is the one declared under its key, the count is the
    total number of declared keys, absent or empty metadata gives none, a
    single rule object gives what the one-element list of it gives, and the
    validators are created from exactly these descriptors. *)
Theorem ruleDescriptors_one_per_pair (a : Attribute) :
  plain (validation a) = true ->
  map type (ruleDescriptors a) = concat (map Object_keys (declared (validation a))) /\
  length (ruleDescriptors a) = sum_list (map length (declared (validation a))) /\
  (forall d, d ∈ ruleDescriptors a ->
     attribute d = a /\
     exists r, r ∈ declared (validation a) /\ type d ∈ Object_keys r /\
               value d = get_prop (type d) r) /\
  ((forall r, r ∈ declared (validation a) -> NoDup (Object_keys r)) ->
   map (fun d => (type d, value d)) (ruleDescriptors a)
   = concat (declared (validation a))) /\
  (validation a = NoValidation \/ validation a = RuleList [] ->
   ruleDescriptors a = []) /\
  (forall r, validation a = OneRule r ->
     ruleDescriptors a =
     map (fun k => {| type := k; value := get_prop k r; attribute := a |})
         (Object_keys r) /\
     map (fun d => (type d, value d)) (ruleDescriptors a) =
     map (fun d => (type d, value d))
       (ruleDescriptors {| field_name := field_name a; attr_ref := attr_ref a;
                           validation := RuleList [r] |})) /\
  (forall E this s,
     validatorsFor E this a s
     = mapM (lookupValidator E (getOwner this))
            (descriptors a (declared (validation a))) s).
Proof.
  intros Hplain. pose proof (ruleDescriptors_declared a Hplain) as Hds.
  split; [| split; [| split; [| split; [| split; [| split]]]]].
  - rewrite Hds. clear Hds. unfold descriptors.
    induction (declared (validation a)) as [| r rs IH]; simpl; [done |].
    rewrite map_app, IH. f_equal. rewrite map_map. simpl. apply map_id.
  - rewrite Hds. clear Hds. unfold descriptors.
    induction (declared (validation a)) as [| r rs IH]; simpl; [done |].
    rewrite length_app, IH, length_map. unfold Object_keys. by rewrite length_map.
  - intros d. apply ruleDescriptors_sound.
  - rewrite Hds. clear Hds. unfold descriptors.
    induction (declared (validation a)) as [| r rs IH]; simpl; intros Hnd; [done |].
    rewrite map_app, IH.
    + f_equal. rewrite map_map. simpl. apply pairs_of_keys.
      apply Hnd. apply elem_of_cons. by left.
    + intros r' Hr'. apply Hnd. apply elem_of_cons. by right.
  - rewrite Hds. by intros [-> | ->].
  - intros r Hr. rewrite Hds, Hr. simpl. rewrite !app_nil_r.
    split; [done |].
    unfold ruleDescriptors, descriptors. simpl. by rewrite app_nil_r, !map_map.
  - intros E this s. rewrite validatorsFor_eq, (plain_iterable _ Hplain).
    by rewrite Hds.
Qed.

Lemma ruleDescriptors_one_per_pair_witness :
  map (fun d => (type d, value d)) (ruleDescriptors age_attr)
  = [("numeric", VBool true); ("range", VObject 20)] /\
  map (fun d => (type d, value d)) (ruleDescriptors alias_attr)
  = [("presence", VBool true); ("unknown", VBool true)].
Proof.
  destruct (ruleDescriptors_one_per_pair age_attr eq_refl)
    as (_ & _ & _ & Hage & _).
  destruct (ruleDescriptors_one_per_pair alias_attr eq_refl)
    as (_ & _ & _ & Halias & _).
  split.
  - rewrite Hage; [reflexivity |].
    intros r Hr. simpl in Hr. unfold Object_keys.
    repeat (apply elem_of_cons in Hr as [-> | Hr]; [by apply NoDup_singleton |]).
    by apply elem_of_nil in Hr.
  - rewrite Halias; [reflexivity |].
    intros r Hr. simpl in Hr.
    apply list_elem_of_singleton in Hr as ->. unfold Object_keys. simpl.
    apply NoDup_cons. split; [| apply NoDup_singleton].
    intros H. by apply list_elem_of_singleton in H.
Defined.

(** One validator is created per descriptor. *)
Lemma validatorsFor_length E this a s vs s' :
  validatorsFor E this a s = (Return vs, s') ->
  length vs = length (ruleDescriptors a).
Proof.
  rewrite validatorsFor_eq. destruct (iterable (validation a)); [| done].
  apply mapM_length.
Qed.

(** ** Validator instantiation *)

Lemma deref_insert_eq (h : gmap loc props) l o : deref (<[l := o]> h) l = o.
Proof. unfold deref. by rewrite lookup_insert_eq. Qed.

Lemma deref_insert_ne (h : gmap loc props) l l' o :
  l <> l' -> deref (<[l := o]> h) l' = deref h l'.
Proof. intros Hne. unfold deref. by rewrite lookup_insert_ne. Qed.



(** What [lookupValidator] does, case by case: the class is missing and the
    assertion fails; or the class is missing, the assertion is stripped, and
    the call throws at the merge (a [null] value) or at the assignment of
    the class stamp, after the merge; or the class is there, and the call
    throws at the merge (a [null] value) or returns the validator. *)
Lemma lookupValidator_eq E container obj s :
  lookupValidator E container obj s =
  match lookupValidtorFactory container (type obj) with
  | None =>
      if Ember_debug E then (Throw (not_found (type obj)), s)
      else
        match value obj with
        | VNull =>
            (Throw (TypeError "Cannot set property 'attribute' of null"), s)
        | _ =>
            (Throw (TypeError "Cannot set property 'typeKey' of undefined"),
             merged container obj s)
        end
  | Some cls =>
      match value obj with
      | VNull => (Throw (TypeError "Cannot set property 'attribute' of null"), s)
      | _ =>
          (Return {| vclass := cls; vprops := config_of container obj s |},
           set_typeKeys (<[class_id cls := camelize E (type obj)]> (typeKeys s))
             (merged container obj s))
      end
  end.
Proof.
  unfold lookupValidator, Ember_assert, merged, config_of, not_found.
  destruct (lookupValidtorFactory container (type obj)) as [cls |];
    destruct (Ember_debug E); simpl; try reflexivity;
    destruct (value obj) as [| | b | n | m | l]; simpl; try reflexivity;
    unfold bind, modify, read, ret, throw; simpl;
    by rewrite deref_insert_eq.
Qed.

Lemma merged_same_record container obj s : same_record s (merged container obj s).
Proof. unfold merged. destruct (value obj); by repeat split. Qed.

Lemma typeKeys_merged container obj s :
  typeKeys (merged container obj s) = typeKeys s.
Proof. unfold merged. by destruct (value obj). Qed.

Lemma heap_merged_ne container obj s l :
  value obj <> VObject l -> heap (merged container obj s) !! l = heap s !! l.
Proof.
  unfold merged. destruct (value obj) as [| | | | | l0]; try done.
  intros Hne. simpl. rewrite lookup_insert_ne; [done | congruence].
Qed.


Lemma lookupValidator_shorthand E container obj cls s :
  lookupValidtorFactory container (type obj) = Some cls ->
  typeof (value obj) <> "object" ->
  lookupValidator E container obj s =
  (Return {| vclass := cls;
             vprops := Ember_merge [(type obj, value obj)]
                                   (updates_of container obj) |},
   set_typeKeys (<[class_id cls := camelize E (type obj)]> (typeKeys s)) s).
Proof.
  intros Hcls Hty. rewrite lookupValidator_eq, Hcls.
  unfold config_of, merged.
  destruct (value obj) eqn:Hv; simpl in *; try done.
Qed.

Lemma lookupValidator_object E container obj cls l s :
  lookupValidtorFactory container (type obj) = Some cls ->
  value obj = VObject l ->
  lookupValidator E container obj s =
  (Return {| vclass := cls;
             vprops := Ember_merge (deref (heap s) l) (updates_of container obj) |},
   set_typeKeys (<[class_id cls := camelize E (type obj)]> (typeKeys s))
     (set_heap (<[l := Ember_merge (deref (heap s) l) (updates_of container obj)]>
                  (heap s)) s)).
Proof.
  intros Hcls Hv. rewrite lookupValidator_eq, Hcls.
  unfold config_of, merged. by rewrite Hv.
Qed.

(** The validator is created exactly when the rule can be instantiated; it
    is then of the class the rule type resolves to, configured by
    [config_of]. *)
Lemma lookupValidator_returns E container obj cls s :
  lookupValidtorFactory container (type obj) = Some cls ->
  value obj <> VNull ->
  lookupValidator E container obj s =
  (Return {| vclass := cls; vprops := config_of container obj s |},
   set_typeKeys (<[class_id cls := camelize E (type obj)]> (typeKeys s))
     (merged container obj s)).
Proof.
  intros Hcls Hnull. rewrite lookupValidator_eq, Hcls.
  by destruct (value obj).
Qed.

Lemma lookupValidator_returned E container obj s v s' :
  lookupValidator E container obj s = (Return v, s') ->
  lookupValidtorFactory container (type obj) = Some (vclass v) /\
  value obj <> VNull /\
  vprops v = config_of container obj s /\
  s' = set_typeKeys (<[class_id (vclass v) := camelize E (type obj)]> (typeKeys s))
         (merged container obj s).
Proof.
  rewrite lookupValidator_eq.
  destruct (lookupValidtorFactory container (type obj)) as [cls |].
  - destruct (value obj); try done; by intros [= <- <-].
  - destruct (Ember_debug E); [done |]. by destruct (value obj).
Qed.

Lemma lookupValidator_returns_iff E container d s :
  (exists v s', lookupValidator E container d s = (Return v, s')) <->
  instantiable container d.
Proof.
  split.
  - intros (v & s' & Hrun).
    apply lookupValidator_returned in Hrun as (Hcls & Hnull & _). split; eauto.
  - intros [[cls Hcls] Hnull].
    rewrite (lookupValidator_returns _ _ _ cls) by done. eauto.
Qed.

(** What a call that throws leaves behind: the store it started from, or,
    where the assertion is stripped, the store after the merge. *)
Lemma lookupValidator_thrown E container obj s e s' :
  lookupValidator E container obj s = (Throw e, s') ->
  ~ instantiable container obj /\
  (s' = s \/
   Ember_debug E = false /\ lookupValidtorFactory container (type obj) = None /\
   s' = merged container obj s) /\
  (Ember_debug E = true -> s' = s) /\
  (Ember_debug E = true -> lookupValidtorFactory container (type obj) = None ->
   e = not_found (type obj)).
Proof.
  rewrite lookupValidator_eq.
  destruct (lookupValidtorFactory container (type obj)) as [cls |] eqn:Hcls.
  - destruct (value obj) eqn:Hv; try done. intros [= <- <-].
    split; [by intros [_ ?] |]. split; [by left |]. by split.
  - intros H. split; [intros [[cls ?] _]; congruence |].
    destruct (Ember_debug E).
    + injection H as <- <-. split; [by left |]. by split.
    + destruct (value obj); injection H as <- <-;
        (split; [(by left) || (by right) |]); by split.
Qed.

(** Whatever the outcome, the call writes at most the rule's value and the
    stamp of the class the rule type resolves to. *)
Lemma lookupValidator_store E container obj s r s' :
  lookupValidator E container obj s = (r, s') ->
  same_record s s' /\
  (heap s' = heap s \/ heap s' = heap (merged container obj s)) /\
  (typeKeys s' = typeKeys s \/
   exists cls, lookupValidtorFactory container (type obj) = Some cls /\
     typeKeys s' = <[class_id cls := camelize E (type obj)]> (typeKeys s)).
Proof.
  intros Hrun. destruct r as [v | e].
  - apply lookupValidator_returned in Hrun as (Hcls & _ & _ & ->).
    split; [apply merged_same_record |]. split; [by right |].
    right. exists (vclass v). split; [done |]. reflexivity.
  - apply lookupValidator_thrown in Hrun as (_ & [-> | (_ & _ & ->)] & _).
    + split; [reflexivity |]. split; by left.
    + split; [apply merged_same_record |]. split; [by right |].
      left. apply typeKeys_merged.
Qed.

(** ** What is merged into a configuration *)

Lemma keys_merge_updates container obj o :
  "attribute" ∈ Object_keys (Ember_merge o (updates_of container obj)) /\
  "messageResolver" ∈ Object_keys (Ember_merge o (updates_of container obj)).
Proof.
  unfold Ember_merge, updates_of. simpl. split.
  - apply keys_set_prop_mono, keys_set_prop_self.
  - apply keys_set_prop_self.
Qed.

Lemma get_prop_merge_updates k container obj o :
  k <> "attribute" -> k <> "messageResolver" ->
  get_prop k (Ember_merge o (updates_of container obj)) = get_prop k o.
Proof.
  intros H1 H2. unfold Ember_merge, updates_of. simpl.
  by rewrite !get_prop_set_prop_ne.
Qed.

Lemma get_prop_merged container obj o :
  get_prop "attribute" (Ember_merge o (updates_of container obj))
  = VObject (attr_ref (attribute obj)) /\
  get_prop "messageResolver" (Ember_merge o (updates_of container obj))
  = resolver_val (lookupMessageResolver container).
Proof.
  unfold Ember_merge, updates_of. simpl. split.
  - rewrite get_prop_set_prop_ne by done. apply get_prop_set_prop_eq.
  - apply get_prop_set_prop_eq.
Qed.

Lemma config_of_merged container obj s :
  get_prop "attribute" (config_of container obj s)
  = VObject (attr_ref (attribute obj)) /\
  get_prop "messageResolver" (config_of container obj s)
  = resolver_val (lookupMessageResolver container) /\
  "attribute" ∈ Object_keys (config_of container obj s) /\
  "messageResolver" ∈ Object_keys (config_of container obj s).
Proof.
  unfold config_of.
  destruct (value obj);
    (split; [apply get_prop_merged |
     split; [apply get_prop_merged | apply keys_merge_updates]]).
Qed.




Lemma lookupValidator_same_record E container obj :
  preserves same_record (lookupValidator E container obj).
Proof.
  intros s r s' Hrun. by destruct (lookupValidator_store _ _ _ _ _ _ Hrun).
Qed.

Lemma validatorsFor_same_record E this a :
  preserves same_record (validatorsFor E this a).
Proof.
  intros s r s'. rewrite validatorsFor_eq.
  destruct (iterable (validation a)).
  - apply (preserves_mapM same_record). intros obj.
    apply lookupValidator_same_record.
  - by intros [= _ <-].
Qed.


(** ** Which registrations reach the validator *)

(** A validator or a message resolver registered by the application shadows
    the one of the addon's own namespace, which is used only when the
    application registers none. *)
Theorem application_registrations_shadow E container obj s :
  value obj <> VNull ->
  (forall cls,
     (container_lookupFactory container ("validator:" +:+ type obj) = Some cls \/
      container_lookupFactory container ("validator:" +:+ type obj) = None /\
      container_lookupFactory container
        ("ember-cli-data-validation@validator:" +:+ type obj) = Some cls) ->
     exists v s',
       lookupValidator E container obj s = (Return v, s') /\
       vclass v = cls /\
       forall r,
         (container_lookup container "resolver:validation-message" = Some r \/
          container_lookup container "resolver:validation-message" = None /\
          container_lookup container
            "ember-cli-data-validation@resolver:validation-message" = Some r) ->
         get_prop "messageResolver" (vprops v) = VObject (resolver_ref r)).
Proof.
  intros Hnull cls Hcls.
  assert (Hf : lookupValidtorFactory container (type obj) = Some cls).
  { unfold lookupValidtorFactory, or_else.
    destruct Hcls as [-> | [-> ->]]; done. }
  eexists _, _. split; [by apply lookupValidator_returns |].
  split; [done |]. intros r Hr. simpl.
  destruct (config_of_merged container obj s) as (_ & -> & _).
  unfold lookupMessageResolver, or_else.
  destruct Hr as [-> | [-> ->]]; done.
Qed.

Lemma application_registrations_shadow_witness :
  exists v s',
    lookupValidator imports0 container_app
      {| type := "presence"; value := VBool true; attribute := name_attr |} store0
    = (Return v, s') /\
    vclass v = presence /\
    get_prop "messageResolver" (vprops v) = VObject 101.
Proof.
  destruct (application_registrations_shadow imports0 container_app
              {| type := "presence"; value := VBool true; attribute := name_attr |}
              store0) with (cls := presence) as (v & s' & Hrun & Hcls & Hres).
  - discriminate.
  - left. reflexivity.
  - exists v, s'. split; [exact Hrun |]. split; [exact Hcls |].
    apply (Hres resolver_app). left. reflexivity.
Defined.

(** Creating a validator does not need a message resolver: with none
    registered the instance is created all the same and its
    [messageResolver] property is [undefined]. *)
Theorem lookupValidator_without_resolver E container obj cls s :
  lookupMessageResolver container = None ->
  lookupValidtorFactory container (type obj) = Some cls ->
  value obj <> VNull ->
  exists v s',
    lookupValidator E container obj s = (Return v, s') /\
    "messageResolver" ∈ Object_keys (vprops v) /\
    get_prop "messageResolver" (vprops v) = VUndefined.
Proof.
  intros Hnone Hcls Hnull.
  eexists _, _. split; [by apply lookupValidator_returns |]. simpl.
  destruct (config_of_merged container obj s) as (_ & Hm & _ & Hk).
  split; [done |]. by rewrite Hm, Hnone.
Qed.

Lemma lookupValidator_without_resolver_witness :
  exists v s',
    lookupValidator imports0 container_bare
      {| type := "presence"; value := VBool true; attribute := name_attr |} store0
    = (Return v, s') /\
    get_prop "messageResolver" (vprops v) = VUndefined.
Proof.
  destruct (lookupValidator_without_resolver imports0 container_bare
              {| type := "presence"; value := VBool true; attribute := name_attr |}
              presence store0) as (v & s' & Hrun & _ & Hm).
  - reflexivity.
  - reflexivity.
  - discriminate.
  - exists v, s'. split; [exact Hrun | exact Hm].
Defined.

(** ** Rule types that collide with the merged keys *)

(** A shorthand rule keeps its value in the configuration under its rule
    type unless the type is [attribute] or [messageResolver]: the merge then
    overwrites the wrapped value with the field or the resolver. *)
Theorem shorthand_reserved_types E container obj cls s :
  lookupValidtorFactory container (type obj) = Some cls ->
  typeof (value obj) <> "object" ->
  exists v s',
    lookupValidator E container obj s = (Return v, s') /\
    (type obj <> "attribute" -> type obj <> "messageResolver" ->
       vprops v = (type obj, value obj) :: updates_of container obj /\
       get_prop (type obj) (vprops v) = value obj) /\
    (type obj = "attribute" ->
       vprops v = updates_of container obj /\
       get_prop (type obj) (vprops v) = VObject (attr_ref (attribute obj))) /\
    (type obj = "messageResolver" ->
       vprops v = [("messageResolver", resolver_val (lookupMessageResolver container));
                   ("attribute", VObject (attr_ref (attribute obj)))] /\
       get_prop (type obj) (vprops v)
       = resolver_val (lookupMessageResolver container)).
Proof.
  intros Hcls Hty.
  rewrite (lookupValidator_shorthand _ _ _ _ _ Hcls Hty).
  eexists _, _. split; [reflexivity |].
  unfold Ember_merge, updates_of. cbn [vprops foldl fst snd set_prop].
  split; [| split].
  - intros H1 H2.
    assert (E1 : String.eqb "attribute" (type obj) = false)
      by (apply String.eqb_neq; congruence).
    assert (E2 : String.eqb "messageResolver" (type obj) = false)
      by (apply String.eqb_neq; congruence).
    rewrite E1. cbn [set_prop]. rewrite E2. cbn [set_prop get_prop].
    rewrite String.eqb_refl. rewrite (String.eqb_sym "messageResolver" "attribute").
    done.
  - intros ->. done.
  - intros ->. done.
Qed.

Lemma shorthand_reserved_types_witness :
  exists v s',
    lookupValidator imports0 container_app
      {| type := "attribute"; value := VBool true; attribute := name_attr |} store0
    = (Return v, s') /\
    get_prop "attribute" (vprops v) = VObject 10.
Proof.
  destruct (shorthand_reserved_types imports0 container_app
              {| type := "attribute"; value := VBool true; attribute := name_attr |}
              odd store0) as (v & s' & Hrun & _ & Hattr & _).
  - reflexivity.
  - simpl. discriminate.
  - exists v, s'. split; [exact Hrun |].
    destruct (Hattr eq_refl) as [_ Hget]. exact Hget.
Defined.

(** ** Normalized configurations *)

(** Shorthand and explicit syntax reach the validator as the same
    configuration when the explicit object is the wrapped shorthand. *)
Lemma shorthand_matches_explicit E container cls t v a l s :
  lookupValidtorFactory container t = Some cls ->
  typeof v <> "object" ->
  deref (heap s) l = [(t, v)] ->
  fst (lookupValidator E container {| type := t; value := v; attribute := a |} s)
  = fst (lookupValidator E container
           {| type := t; value := VObject l; attribute := a |} s).
Proof.
  intros Hcls Hty Hl.
  rewrite (lookupValidator_shorthand E container
             {| type := t; value := v; attribute := a |} cls s Hcls Hty).
  rewrite (lookupValidator_object E container
             {| type := t; value := VObject l; attribute := a |} cls l s Hcls eq_refl).
  simpl. by rewrite Hl.
Qed.

Lemma shorthand_matches_explicit_witness :
  fst (lookupValidator imports0 container0
         {| type := "range"; value := VNum 3; attribute := age_attr |}
         (set_heap {[ 21 := [("range", VNum 3)] ]} store0))
  = fst (lookupValidator imports0 container0
           {| type := "range"; value := VObject 21; attribute := age_attr |}
           (set_heap {[ 21 := [("range", VNum 3)] ]} store0)).
Proof.
  apply (shorthand_matches_explicit imports0 container0 range).
  - reflexivity.
  - simpl. discriminate.
  - vm_compute. reflexivity.
Defined.

(** For the rule type [range], the shorthand [{range: 5}] and the explicit
    [{range: {min: 5}}] reach the validator as different configurations:
    the first holds the value under the rule type, the second under
    [min]. *)
Example shorthand_and_explicit_differ :
  fst (lookupValidator imports0 container0
         {| type := "range"; value := VNum 5; attribute := age_attr |}
         (set_heap {[ 21 := [("min", VNum 5)] ]} store0))
  = Return {| vclass := range;
              vprops := [("range", VNum 5); ("attribute", VObject 11);
                         ("messageResolver", VObject 100)] |} /\
  fst (lookupValidator imports0 container0
         {| type := "range"; value := VObject 21; attribute := age_attr |}
         (set_heap {[ 21 := [("min", VNum 5)] ]} store0))
  = Return {| vclass := range;
              vprops := [("min", VNum 5); ("attribute", VObject 11);
                         ("messageResolver", VObject 100)] |}.
Proof. split; vm_compute; reflexivity. Qed.

(** Normalizing an object twice is normalizing it once. *)
Lemma lookupValidator_object_idempotent E container obj l s v1 s1 :
  value obj = VObject l ->
  lookupValidator E container obj s = (Return v1, s1) ->
  lookupValidator E container obj s1 = (Return v1, s1).
Proof.
  intros Hv Hrun.
  pose proof (lookupValidator_returned _ _ _ _ _ _ Hrun) as (Hcls & _ & _ & _).
  rewrite (lookupValidator_object _ _ _ _ _ _ Hcls Hv) in Hrun.
  injection Hrun as <- <-.
  rewrite (lookupValidator_object _ _ _ _ _ _ Hcls Hv). simpl.
  rewrite deref_insert_eq.
  unfold updates_of. rewrite merge_absorb by done.
  unfold set_typeKeys, set_heap. simpl.
  by rewrite !insert_insert_eq.
Qed.

(** For every rule descriptor whose validator class resolves and whose
    value is not [null], the validator is created from a normalized
    configuration.  A value that is not of type object is wrapped as
    [{[type]: value}] in an object made for the call; a value that is an
    object is used as it is, its other properties unchanged, and
    instantiating again from it changes nothing more; in both cases
    [attribute] and [messageResolver] are merged in. *)
Theorem lookupValidator_normalizes E container obj cls s :
  lookupValidtorFactory container (type obj) = Some cls ->
  value obj <> VNull ->
  exists v s',
    lookupValidator E container obj s = (Return v, s') /\
    vclass v = cls /\
    (typeof (value obj) <> "object" ->
       vprops v = Ember_merge [(type obj, value obj)] (updates_of container obj) /\
       heap s' = heap s) /\
    (forall l, value obj = VObject l ->
       vprops v = Ember_merge (deref (heap s) l) (updates_of container obj) /\
       (forall k, k <> "attribute" -> k <> "messageResolver" ->
          get_prop k (vprops v) = get_prop k (deref (heap s) l)) /\
       lookupValidator E container obj s' = (Return v, s')) /\
    get_prop "attribute" (vprops v) = VObject (attr_ref (attribute obj)) /\
    get_prop "messageResolver" (vprops v)
    = resolver_val (lookupMessageResolver container).
Proof.
  intros Hcls Hnull.
  eexists _, _. split; [by apply lookupValidator_returns |].
  split; [done |]. simpl.
  destruct (config_of_merged container obj s) as (Ha & Hm & _).
  split; [| split; [| by split]].
  - intros Hty. unfold config_of, merged.
    destruct (value obj); simpl in *; done.
  - intros l Hl. unfold config_of. rewrite Hl.
    split; [done |]. split.
    + intros k Hk1 Hk2. by apply get_prop_merge_updates.
    + apply (lookupValidator_object_idempotent _ _ _ l s); [done |].
      rewrite (lookupValidator_returns _ _ _ cls) by done.
      unfold config_of. by rewrite Hl.
Qed.

Lemma lookupValidator_normalizes_witness :
  exists v s',
    lookupValidator imports0 container0
      {| type := "range"; value := VNum 3; attribute := age_attr |} store0
    = (Return v, s') /\
    vprops v = [("range", VNum 3); ("attribute", VObject 11);
                ("messageResolver", VObject 100)].
Proof.
  destruct (lookupValidator_normalizes imports0 container0
              {| type := "range"; value := VNum 3; attribute := age_attr |}
              range store0 eq_refl)
    as (v & s' & Hrun & _ & Hshort & _).
  - discriminate.
  - exists v, s'. split; [exact Hrun |].
    destruct Hshort as [-> _]; [simpl; discriminate | reflexivity].
Defined.

(** C6, at the input on which it fails: the shorthand value [null] has
    type object, so it is not wrapped as [{presence: null}]; merging into it
    throws and no configuration reaches the validator. *)
Lemma lookupValidator_null_value_throws :
  typeof (value null_rule) = "object" /\
  lookupValidtorFactory container0 (type null_rule) = Some presence /\
  lookupValidator imports0 container0 null_rule store0
  = (Throw (TypeError "Cannot set property 'attribute' of null"), store0).
Proof. repeat split. Qed.

(** ** The validators of a field *)

Lemma lookupValidator_writes E container obj s r s' :
  lookupValidator E container obj s = (r, s') ->
  same_record s s' /\
  (forall l, value obj <> VObject l -> heap s' !! l = heap s !! l) /\
  (forall cid,
     (forall cls, lookupValidtorFactory container (type obj) = Some cls ->
                  class_id cls <> cid) ->
     typeKeys s' !! cid = typeKeys s !! cid).
Proof.
  intros Hrun.
  destruct (lookupValidator_store _ _ _ _ _ _ Hrun) as (Hrec & Hheap & Hkeys).
  split; [done |]. split.
  - intros l Hl. destruct Hheap as [-> | ->]; [done |]. by apply heap_merged_ne.
  - intros cid Hcid. destruct Hkeys as [-> | (cls & Hcls & ->)]; [done |].
    rewrite lookup_insert_ne; [done |]. by apply Hcid.
Qed.

Lemma mapM_lookupValidator_writes E container ds s r s' :
  mapM (lookupValidator E container) ds s = (r, s') ->
  same_record s s' /\
  (forall l, (forall d, d ∈ ds -> value d <> VObject l) ->
             heap s' !! l = heap s !! l) /\
  (forall cid,
     (forall d cls, d ∈ ds ->
                    lookupValidtorFactory container (type d) = Some cls ->
                    class_id cls <> cid) ->
     typeKeys s' !! cid = typeKeys s !! cid).
Proof.
  revert s r. induction ds as [| d ds IH]; simpl; intros s r Hrun.
  - injection Hrun as _ <-. by repeat split.
  - unfold bind in Hrun.
    destruct (lookupValidator E container d s) as [[v | e] s1] eqn:Hd.
    + destruct (lookupValidator_writes _ _ _ _ _ _ Hd) as (Hr1 & Hh1 & Hk1).
      destruct (mapM _ ds s1) as [[vs | e] s2] eqn:Hm;
        injection Hrun as _ <-;
        destruct (IH _ _ Hm) as (Hr2 & Hh2 & Hk2);
        (split; [by transitivity s1 |]; split;
         [ intros l Hl; rewrite Hh2, Hh1; [done | |];
           [apply Hl, elem_of_cons; by left
           | intros d' Hd'; apply Hl, elem_of_cons; by right]
         | intros cid Hcid; rewrite Hk2, Hk1; [done | |];
           [intros cls; apply Hcid, elem_of_cons; by left
           | intros d' cls Hd'; apply Hcid, elem_of_cons; by right] ]).
    + injection Hrun as _ <-.
      destruct (lookupValidator_writes _ _ _ _ _ _ Hd) as (Hr1 & Hh1 & Hk1).
      split; [done |]. split.
      * intros l Hl. apply Hh1, Hl, elem_of_cons. by left.
      * intros cid Hcid. apply Hk1. intros cls. apply Hcid, elem_of_cons. by left.
Qed.

(** Creating the validators of a field touches neither the record's errors,
    flags, log and field stamps, nor any object that is not the value of one
    of the field's rules, nor the stamp of any class that none of its rule
    types resolves to, whether it returns or throws. *)
(** Creating the validators of a field touches neither the record's errors,
    flags, log and field stamps, nor any object that is not the value of one
    of the field's rules, nor the stamp of any class that none of its rule
    types resolves to, whether it returns or throws. *)
Theorem validatorsFor_writes E this a s :
  same_record s (snd (validatorsFor E this a s)) /\
  (forall l, (forall d, d ∈ ruleDescriptors a -> value d <> VObject l) ->
             heap (snd (validatorsFor E this a s)) !! l = heap s !! l) /\
  (forall cid,
     (forall d cls, d ∈ ruleDescriptors a ->
                    lookupValidtorFactory (getOwner this) (type d) = Some cls ->
                    class_id cls <> cid) ->
     typeKeys (snd (validatorsFor E this a s)) !! cid = typeKeys s !! cid).
Proof.
  rewrite validatorsFor_eq. destruct (iterable (validation a)).
  - destruct (mapM _ _ s) as [r s'] eqn:Hrun. simpl.
    by eapply mapM_lookupValidator_writes.
  - simpl. split; [reflexivity | by split].
Qed.

(** ** The stamp of a validator class *)

Lemma mapM_lookupValidator_app E container pre post s vs s' :
  mapM (lookupValidator E container) (pre ++ post) s = (Return vs, s') ->
  exists vs1 s1 vs2,
    mapM (lookupValidator E container) pre s = (Return vs1, s1) /\
    mapM (lookupValidator E container) post s1 = (Return vs2, s') /\
    vs = vs1 ++ vs2.
Proof.
  revert s vs. induction pre as [| d pre IH]; simpl; intros s vs Hrun.
  - exists [], s, vs. by repeat split.
  - unfold bind in Hrun |- *.
    destruct (lookupValidator E container d s) as [[v | e] s1]; [| done].
    destruct (mapM _ (pre ++ post) s1) as [[vs' | e] s2] eqn:Hm; [| done].
    injection Hrun as <- <-.
    destruct (IH _ _ Hm) as (vs1 & s1' & vs2 & H1 & H2 & ->).
    exists (v :: vs1), s1', vs2. rewrite H1. by repeat split.
Qed.

(** The class-level [typeKey] is that of the last rule of the field that
    resolves to the class: every instance of the class created for the field
    is run under it. *)
(** The class-level [typeKey] is that of the last rule of the field that
    resolves to the class: every instance of the class created for the field
    is run under it. *)
Theorem validatorsFor_last_stamp E this a pre d post cls s vs s' :
  ruleDescriptors a = pre ++ d :: post ->
  lookupValidtorFactory (getOwner this) (type d) = Some cls ->
  (forall d' cls', d' ∈ post ->
     lookupValidtorFactory (getOwner this) (type d') = Some cls' ->
     class_id cls' <> class_id cls) ->
  validatorsFor E this a s = (Return vs, s') ->
  typeKeys s' !! class_id cls = Some (camelize E (type d)) /\
  forall v, v ∈ vs -> class_id (vclass v) = class_id cls ->
    result_of this a (typeKeys s') v
    = run (vclass v)
        {| this_typeKey := Some (camelize E (type d));
           this_props := vprops v;
           arg_name := attrName a;
           arg_value := get this (attrName a);
           arg_attribute := a;
           arg_parentTypeKey :=
             js_or (constructor_modelName this) (constructor_typeKey this);
           arg_model := get this |}.
Proof.
  intros Hds Hcls Hpost. rewrite validatorsFor_eq.
  destruct (iterable (validation a)); [| done].
  rewrite Hds. intros Hrun.
  assert (Hstamp : typeKeys s' !! class_id cls = Some (camelize E (type d))).
  { destruct (mapM_lookupValidator_app _ _ _ _ _ _ _ Hrun)
      as (vs1 & s1 & vs2 & _ & Hrest & _).
    simpl in Hrest. unfold bind in Hrest.
    destruct (lookupValidator E (getOwner this) d s1) as [[v | e] s2] eqn:Hd;
      [| done].
    destruct (mapM _ post s2) as [[vs' | e] s3] eqn:Hm; [| done].
    injection Hrest as _ <-.
    destruct (mapM_lookupValidator_writes _ _ _ _ _ _ Hm) as (_ & _ & Hk).
    rewrite Hk by (intros d' cls'; apply Hpost).
    apply lookupValidator_returned in Hd as (Hcls' & _ & _ & ->).
    assert (vclass v = cls) as -> by congruence.
    simpl. apply lookup_insert_eq. }
  split; [exact Hstamp |].
  intros v _ Hv. unfold result_of. by rewrite Hv, Hstamp.
Qed.

Lemma validatorsFor_last_stamp_witness :
  exists vs s',
    validatorsFor imports0 (person container_app [size_attr]) size_attr age_store
    = (Return vs, s') /\
    typeKeys s' !! 3 = Some "min".
Proof.
  set (this := person container_app [size_attr]).
  pose (d1 := {| type := "range"; value := VObject 20; attribute := size_attr |}).
  pose (d2 := {| type := "min"; value := VNum 3; attribute := size_attr |}).
  destruct (validatorsFor imports0 this size_attr age_store) as [[vs | e] s']
    eqn:Hrun; [| vm_compute in Hrun; discriminate Hrun].
  destruct (validatorsFor_last_stamp imports0 this size_attr [d1] d2 [] range
              age_store vs s' eq_refl eq_refl) as [Hstamp _].
  - intros d' cls' Hd'. by apply elem_of_nil in Hd'.
  - exact Hrun.
  - exists vs, s'. split; [reflexivity | exact Hstamp].
Defined.

(** ** When the validators of a field are created *)

Lemma mapM_lookupValidator_returns_iff E container ds s :
  (exists vs s', mapM (lookupValidator E container) ds s = (Return vs, s')) <->
  (forall d, d ∈ ds -> instantiable container d).
Proof.
  revert s. induction ds as [| d ds IH]; intros s; simpl.
  - split; [intros _ d Hd; by apply elem_of_nil in Hd | intros _; by eexists _, _].
  - unfold bind. split.
    + intros (vs & s' & Hrun) d' Hd'.
      destruct (lookupValidator E container d s) as [[v | e] s1] eqn:Hd; [| done].
      destruct (mapM _ ds s1) as [[vs' | e] s2] eqn:Hm; [| done].
      apply elem_of_cons in Hd' as [-> | Hd'].
      * apply (lookupValidator_returns_iff E container d s). eauto.
      * apply (IH s1); eauto.
    + intros Hall.
      destruct (proj2 (lookupValidator_returns_iff E container d s))
        as (v & s1 & Hd); [apply Hall, elem_of_cons; by left |].
      rewrite Hd.
      destruct (proj2 (IH s1)) as (vs & s2 & Hm);
        [intros d' Hd'; apply Hall, elem_of_cons; by right |].
      rewrite Hm. by eexists _, _.
Qed.

Lemma mapM_lookupValidator_throws E container ds s e s' :
  mapM (lookupValidator E container) ds s = (Throw e, s') ->
  exists d, d ∈ ds /\ ~ instantiable container d.
Proof.
  revert s. induction ds as [| d ds IH]; simpl; intros s Hrun; [done |].
  unfold bind in Hrun.
  destruct (lookupValidator E container d s) as [[v | e'] s1] eqn:Hd.
  - destruct (mapM _ ds s1) as [[vs | e'] s2] eqn:Hm; [done |].
    injection Hrun as -> ->.
    destruct (IH _ Hm) as (d' & Hd' & Hno).
    exists d'. split; [apply elem_of_cons; by right | done].
  - exists d. split; [apply elem_of_cons; by left |].
    by apply lookupValidator_thrown in Hd as [? _].
Qed.

Lemma mapM_lookupValidator_classes E container ds s vs s' :
  mapM (lookupValidator E container) ds s = (Return vs, s') ->
  Forall2 (fun d v =>
             lookupValidtorFactory container (type d) = Some (vclass v) /\
             get_prop "attribute" (vprops v) = VObject (attr_ref (attribute d)))
          ds vs.
Proof.
  revert s vs. induction ds as [| d ds IH]; simpl; intros s vs Hrun.
  - injection Hrun as <- _. constructor.
  - unfold bind in Hrun.
    destruct (lookupValidator E container d s) as [[v | e] s1] eqn:Hd; [| done].
    destruct (mapM _ ds s1) as [[vs' | e] s2] eqn:Hm; [| done].
    injection Hrun as <- <-. constructor; [| by eapply IH].
    apply lookupValidator_returned in Hd as (Hcls & _ & -> & _).
    split; [done |]. apply config_of_merged.
Qed.

Lemma validatorsFor_creatable E this a s :
  (exists vs s', validatorsFor E this a s = (Return vs, s')) <-> creatable this a.
Proof.
  rewrite validatorsFor_eq. unfold creatable.
  destruct (iterable (validation a)).
  - rewrite mapM_lookupValidator_returns_iff. split; [by split | by intros [_ ?]].
  - split; [by intros (vs & s' & ?) | by intros [? _]].
Qed.

Lemma validatorsFor_classes E this a s vs s' :
  validatorsFor E this a s = (Return vs, s') ->
  Forall2 (fun d v =>
             lookupValidtorFactory (getOwner this) (type d) = Some (vclass v) /\
             get_prop "attribute" (vprops v) = VObject (attr_ref a))
          (ruleDescriptors a) vs.
Proof.
  rewrite validatorsFor_eq.
  destruct (iterable (validation a)); [| done]. intros Hrun.
  apply mapM_lookupValidator_classes in Hrun.
  assert (Hattr : forall d, d ∈ ruleDescriptors a -> attribute d = a)
    by (intros d Hd; by apply ruleDescriptors_sound in Hd as [? _]).
  revert Hattr Hrun. generalize (ruleDescriptors a) as ds.
  intros ds Hattr Hrun.
  induction Hrun as [| d v ds vs' [H1 H2] _ IH]; constructor.
  + split; [done |]. rewrite <- (Hattr d); [done | apply elem_of_cons; by left].
  + apply IH. intros d' Hd'. apply Hattr, elem_of_cons. by right.
Qed.

(** The validators of a field are created exactly when line 99 does not
    throw and every rule of the field can be instantiated; they then come in
    the order of the rules, each of the class its rule type resolves to and
    each configured with the field.  Line 99 throws, before any rule is
    looked at, on a single rule object that is taken for an array. *)
Theorem validatorsFor_returns_iff E this a s :
  ((exists vs s', validatorsFor E this a s = (Return vs, s')) <->
   iterable (validation a) = true /\
   forall d, d ∈ ruleDescriptors a -> instantiable (getOwner this) d) /\
  (forall vs s', validatorsFor E this a s = (Return vs, s') ->
     Forall2 (fun d v =>
                lookupValidtorFactory (getOwner this) (type d) = Some (vclass v) /\
                get_prop "attribute" (vprops v) = VObject (attr_ref a))
             (ruleDescriptors a) vs) /\
  (iterable (validation a) = false <->
   exists r, validation a = OneRule r /\
             isEmpty (validation a) = false /\ isArray (validation a) = true) /\
  (iterable (validation a) = false ->
   validatorsFor E this a s = (Throw not_iterable, s)).
Proof.
  split; [apply validatorsFor_creatable |]. split; [| split].
  - intros vs s'. apply validatorsFor_classes.
  - split.
    + intros Hit. by destruct (validatorsFor_not_iterable E this a s Hit) as (_ & _ & ?).
    + intros (r & Hv & He & Ha). unfold iterable. rewrite Hv in *.
      by rewrite He, Ha.
  - intros Hit. by destruct (validatorsFor_not_iterable E this a s Hit).
Qed.

(** ** Error aggregation *)

Lemma errorsFor_app name e1 e2 :
  errorsFor name (e1 ++ e2) = errorsFor name e1 ++ errorsFor name e2.
Proof. unfold errorsFor. by rewrite filter_app, map_app. Qed.

Lemma errorsFor_failures name results :
  errorsFor name (failures name results)
  = flat_map (fun r => match r with VStr m => [m] | _ => [] end) results.
Proof.
  induction results as [| r results IH]; [done |].
  simpl. rewrite errorsFor_app, IH. f_equal.
  destruct r; try done.
  unfold errorsFor. simpl. rewrite filter_cons. simpl.
  destruct (decide (name = name)); done.
Qed.

(** C7: [_addError] never throws; the Error Collection changes exactly when
    the result is a string, in which case the string is appended under the
    field's name; for any other result the whole store is left as it was. *)
Theorem addError_only_strings (name : string) (result : val) (s : Store) :
  fst (_addError name result s) = Return tt /\
  (errors (snd (_addError name result s)) <> errors s <->
   typeof result = "string") /\
  (forall m, result = VStr m ->
     snd (_addError name result s) = set_errors (errors s ++ [(name, m)]) s /\
     errorsFor name (errors (snd (_addError name result s)))
     = errorsFor name (errors s) ++ [m]) /\
  (typeof result <> "string" -> snd (_addError name result s) = s).
Proof.
  split; [by destruct result |]. split; [| split].
  - destruct result; simpl; split; try done.
    intros _ Heq. apply (f_equal length) in Heq.
    rewrite length_app in Heq. simpl in Heq. lia.
  - intros m ->. simpl. split; [done |].
    rewrite errorsFor_app. f_equal.
    unfold errorsFor. rewrite filter_cons. simpl.
    destruct (decide (name = name)); done.
  - destruct result; simpl; try done.
Qed.

(** ** One field *)

Lemma forEach_validators (this : Model) (a : Attribute) ptk vs s :
  ptk = js_or (constructor_modelName this) (constructor_typeKey this) ->
  forEach vs (fun validator =>
    stamp <- read (fun s => typeKeys s !! class_id (vclass validator)) ;;
    let result :=
      run (vclass validator)
          {| this_typeKey := stamp;
             this_props := vprops validator;
             arg_name := attrName a;
             arg_value := get this (attrName a);
             arg_attribute := a;
             arg_parentTypeKey := ptk;
             arg_model := get this |} in
    modify (record (Validated (class_id (vclass validator)) (attrName a))) ;;
    _addError (attrName a) result) s
  = (Return tt,
     {| heap := heap s; typeKeys := typeKeys s; parentTypeKeys := parentTypeKeys s;
        errors := errors s
                  ++ failures (attrName a) (map (result_of this a (typeKeys s)) vs);
        isValid := isValid s; isDeleted := isDeleted s;
        log := log s
               ++ map (fun v => Validated (class_id (vclass v)) (attrName a)) vs |}).
Proof.
  intros ->. revert s. induction vs as [| v vs IH]; intros s.
  - simpl. unfold ret. rewrite !app_nil_r. by destruct s.
  - simpl. unfold bind at 1. unfold bind at 1. unfold read at 1.
    unfold bind at 1. unfold modify at 1.
    fold (result_of this a (typeKeys s) v).
    destruct (result_of this a (typeKeys s) v) eqn:Hres; simpl;
      unfold ret, errors_add, modify; rewrite IH; simpl;
      rewrite <- ?app_assoc; reflexivity.
Qed.

(** [_validateAttribute] creates every validator first and then runs every
    one of them. *)
Lemma validateAttribute_eq E this a s :
  _validateAttribute E this a s =
  match validatorsFor E this a s with
  | (Return vs, s1) => (Return tt, after_validators this a vs s1)
  | (Throw e, s1) => (Throw e, s1)
  end.
Proof.
  unfold _validateAttribute. unfold bind at 1.
  destruct (validatorsFor E this a s) as [[vs | e] s1]; [| reflexivity].
  unfold bind at 1. unfold modify at 1.
  rewrite forEach_validators by reflexivity. reflexivity.
Qed.

Lemma invocations_app l1 l2 :
  invocations (l1 ++ l2) = invocations l1 ++ invocations l2.
Proof. unfold invocations. apply flat_map_app. Qed.

Lemma invocations_validated name (vs : list Validator) :
  invocations (map (fun v => Validated (class_id (vclass v)) name) vs)
  = map (fun v => (class_id (vclass v), name)) vs.
Proof. induction vs as [| v vs IH]; simpl; [done | by rewrite IH]. Qed.

Lemma messages_count (results : list val) :
  length (flat_map (fun r => match r with VStr m => [m] | _ => [] end) results)
  = length (filter (fun r => typeof r = "string") results).
Proof.
  induction results as [| r results IH]; [done |].
  simpl. rewrite length_app, IH, filter_cons.
  destruct (decide (typeof r = "string")) as [Hr | Hr];
    destruct r; simpl in *; done.
Qed.

(** What a field goes through in [validate]: its validators are created
    and run, or the failure to create them is thrown again (testing mode) or
    reported. *)
Lemma field_pass_eq E this a s :
  field_pass E this a s =
  match validatorsFor E this a s with
  | (Return vs, s1) => (Return tt, after_validators this a vs s1)
  | (Throw e, s1) =>
      if Ember_testing E then (Throw e, s1)
      else (Return tt, record (Reported e) s1)
  end.
Proof.
  unfold field_pass, Ember_run. rewrite validateAttribute_eq.
  by destruct (validatorsFor E this a s) as [[vs | e] s1].
Qed.

(** C8, as amended: when the validators of a field can all be created (line
    99 does not throw and every rule can be instantiated), [validatorsFor]
    creates one validator per rule descriptor, in order and of the class the
    rule type resolves to, and [_validateAttribute] returns after invoking
    every one of them, in declaration order, whatever the earlier ones
    answered; every string answer is appended under the field's name, so the
    field gains as many messages as results are strings. *)
Theorem validateAttribute_runs_every_rule E this a s :
  iterable (validation a) = true ->
  (forall d, d ∈ ruleDescriptors a -> instantiable (getOwner this) d) ->
  exists vs s1 s2,
    validatorsFor E this a s = (Return vs, s1) /\
    _validateAttribute E this a s = (Return tt, s2) /\
    Forall2 (fun d v =>
               lookupValidtorFactory (getOwner this) (type d) = Some (vclass v))
            (ruleDescriptors a) vs /\
    invocations (log s2)
    = invocations (log s) ++ map (fun v => (class_id (vclass v), attrName a)) vs /\
    errors s2
    = errors s ++ failures (attrName a) (map (result_of this a (typeKeys s1)) vs) /\
    errorsFor (attrName a) (errors s2)
    = errorsFor (attrName a) (errors s)
      ++ flat_map (fun r => match r with VStr m => [m] | _ => [] end)
           (map (result_of this a (typeKeys s1)) vs) /\
    length (errorsFor (attrName a) (errors s2))
    = length (errorsFor (attrName a) (errors s))
      + length (filter (fun r => typeof r = "string")
                  (map (result_of this a (typeKeys s1)) vs)).
Proof.
  intros Hit Hall.
  destruct (proj2 (validatorsFor_creatable E this a s) (conj Hit Hall))
    as (vs & s1 & Hvs).
  destruct (validatorsFor_same_record E this a _ _ _ Hvs) as (He & Hl & _).
  exists vs, s1, (after_validators this a vs s1).
  split; [done |].
  split; [by rewrite validateAttribute_eq, Hvs |].
  split.
  { eapply Forall2_impl; [apply (validatorsFor_classes _ _ _ _ _ _ Hvs) |].
    by intros d v [? _]. }
  simpl. rewrite He, Hl.
  split; [by rewrite invocations_app, invocations_validated |].
  split; [done |].
  rewrite errorsFor_app, errorsFor_failures.
  split; [done |].
  by rewrite length_app, messages_count.
Qed.

(** The field [age], declared [[{numeric: true}, {range: {min: 0}}]] and
    holding [-5], fails both rules and ends the pass with both messages. *)
Lemma validateAttribute_runs_every_rule_witness :
  exists s2,
    _validateAttribute imports0 (person container0 [age_attr]) age_attr age_store
    = (Return tt, s2) /\
    invocations (log s2) = [(2, "age"); (3, "age")] /\
    errorsFor "age" (errors s2) = ["must be a number"; "is too small"].
Proof.
  set (this := person container0 [age_attr]).
  destruct (validateAttribute_runs_every_rule imports0 this age_attr age_store)
    as (vs & s1 & s2 & Hvs & Hrun & _ & Hinv & _ & Herr & _).
  - reflexivity.
  - intros d Hd. split.
    + apply elem_of_cons in Hd as [-> | Hd]; [by exists numeric |].
      apply list_elem_of_singleton in Hd as ->. by exists range.
    + apply elem_of_cons in Hd as [-> | Hd]; [done |].
      by apply list_elem_of_singleton in Hd as ->.
  - exists s2. split; [exact Hrun |].
    vm_compute in Hvs. injection Hvs as <- <-.
    split; [exact Hinv | exact Herr].
Defined.

(** C8 fails as stated: the field [alias] declares [{presence: true,
    unknown: true}] and holds no value.  The rule [presence] alone fails on
    it with a message, but no validator is registered for [unknown]: the
    validators of the field are not created, [_validateAttribute] throws
    before any of them runs, and the field gets no message.  Run by an
    application, the pass reports the failure and returns [true]. *)
Lemma unresolved_rule_stops_the_field :
  map type (ruleDescriptors alias_attr) = ["presence"; "unknown"] /\
  errors (snd (_validateAttribute imports0 (person container0 [alias_attr])
                 {| field_name := "alias"; attr_ref := 16;
                    validation := OneRule [("presence", VBool true)] |} store0))
  = [("alias", "can't be blank")] /\
  fst (_validateAttribute imports0 (person container0 [alias_attr]) alias_attr
         store0)
  = Throw (AssertionFailed "Could not find Validator `unknown`.") /\
  errors (snd (_validateAttribute imports0 (person container0 [alias_attr])
                 alias_attr store0)) = [] /\
  invocations
    (log (snd (_validateAttribute imports0 (person container0 [alias_attr])
                 alias_attr store0))) = [] /\
  fst (validate imports_app (person container0 [alias_attr]) true store0)
  = Return true /\
  errors (snd (validate imports_app (person container0 [alias_attr]) true store0))
  = [] /\
  invocations
    (log (snd (validate imports_app (person container0 [alias_attr]) true store0)))
  = [].
Proof. repeat split; vm_compute; reflexivity. Qed.

(** A field is validated all or nothing: when [_validateAttribute] throws,
    no validator of the field has run, so the field adds no error, is not
    stamped with the model's name, and the record's flags and signals are
    untouched.  It throws because line 99 does, on a rule object taken for
    an array, or because one of the field's rules cannot be instantiated. *)
Theorem validateAttribute_all_or_nothing E this a s e s' :
  _validateAttribute E this a s = (Throw e, s') ->
  same_record s s' /\
  (iterable (validation a) = false \/
   exists d, d ∈ ruleDescriptors a /\ ~ instantiable (getOwner this) d) /\
  (iterable (validation a) = false -> e = not_iterable /\ s' = s).
Proof.
  rewrite validateAttribute_eq.
  destruct (validatorsFor E this a s) as [[vs | e'] s1] eqn:Hvs; [done |].
  intros [= <- <-]. split; [by eapply validatorsFor_same_record |].
  rewrite validatorsFor_eq in Hvs.
  destruct (iterable (validation a)).
  - split; [| done]. right. by eapply mapM_lookupValidator_throws.
  - injection Hvs as <- <-. split; [by left | done].
Qed.

Lemma validateAttribute_all_or_nothing_witness :
  exists e s',
    _validateAttribute imports0 (person container0 [alias_attr]) alias_attr store0
    = (Throw e, s') /\
    errors s' = [] /\ log s' = [] /\ parentTypeKeys s' !! 16 = None.
Proof.
  set (this := person container0 [alias_attr]).
  destruct (_validateAttribute imports0 this alias_attr store0) as [[[] | e] s']
    eqn:Hrun; [vm_compute in Hrun; discriminate Hrun |].
  destruct (validateAttribute_all_or_nothing imports0 this alias_attr store0 e s'
              Hrun) as [(He & Hl & _ & _ & Hp) _].
  exists e, s'. split; [reflexivity |].
  rewrite He, Hl, Hp. by repeat split.
Defined.

(** A validator that answers [false] is invoked and leaves no trace in the
    Error Collection. *)
Example non_string_result_is_ignored :
  validate imports0 (person container0 [flag_attr]) true store0
  = (Return true,
     snd (validate imports0 (person container0 [flag_attr]) true store0)) /\
  errors (snd (validate imports0 (person container0 [flag_attr]) true store0))
  = [] /\
  invocations
    (log (snd (validate imports0 (person container0 [flag_attr]) true store0)))
  = [(4, "flag")].
Proof. repeat split; vm_compute; reflexivity. Qed.

(** The field [name], declared [{presence: true}] and holding the empty
    string: the pass returns [false], leaves one message under [name] and
    signals the record dirty and invalid. *)
Example blank_name_fails_validation :
  validate imports0 (person container0 [name_attr]) true store0
  = (Return false,
     snd (validate imports0 (person container0 [name_attr]) true store0)) /\
  errors (snd (validate imports0 (person container0 [name_attr]) true store0))
  = [("name", "can't be blank")] /\
  isValid (snd (validate imports0 (person container0 [name_attr]) true store0))
  = false /\
  log (snd (validate imports0 (person container0 [name_attr]) true store0))
  = [Sent "willCommit"; Validated 1 "name"; Sent "becomeDirty";
     Triggered "becameInvalid"].
Proof. repeat split; vm_compute; reflexivity. Qed.

(** ** The first step of a pass and deleted records *)

Lemma validate_reset E this willCommit s :
  validate E this willCommit s =
  (deleted <- read isDeleted ;;
   if deleted then ret true
   else
     (if willCommit then send "willCommit" else ret tt) ;;
     forEach (attributes this) (field_pass E this) ;;
     forEach (relationships this) (field_pass E this) ;;
     isValid <- read (fun s => isEmpty (errors s)) ;;
     (if negb isValid
      then send "becomeDirty" ;; errors_trigger "becameInvalid"
      else ret tt) ;;
     ret isValid) (reset s).
Proof.
  unfold validate, reset. unfold bind at 1. unfold read at 1.
  destruct (isValid s); reflexivity.
Qed.

Lemma isDeleted_reset s : isDeleted (reset s) = isDeleted s.
Proof. unfold reset. by destruct (isValid s). Qed.

(** C1, as amended: on a deleted record [validate] returns [true] and no
    validator is created or run (heap, class stamps and recorded invocations
    are those before the call); the Error Collection is unchanged when the
    record was valid, and it is emptied, after a [becameValid] signal, when
    the record was not valid. *)
Theorem validate_deleted E this willCommit s :
  isDeleted s = true ->
  validate E this willCommit s = (Return true, reset s) /\
  invocations (log (reset s)) = invocations (log s) /\
  heap (reset s) = heap s /\
  typeKeys (reset s) = typeKeys s /\
  errors (reset s) = (if isValid s then errors s else []) /\
  (isValid s = true -> reset s = s).
Proof.
  intros Hdel. split.
  - rewrite validate_reset. unfold bind, read.
    by rewrite isDeleted_reset, Hdel.
  - unfold reset. destruct (isValid s); simpl; repeat split; try done.
    unfold invocations. rewrite flat_map_app. simpl. by rewrite app_nil_r.
Qed.

Lemma validate_deleted_witness :
  validate imports0 (person container0 [name_attr]) true deleted_invalid_store
  = (Return true, reset deleted_invalid_store) /\
  errors (reset deleted_invalid_store) = [].
Proof.
  destruct (validate_deleted imports0 (person container0 [name_attr]) true
              deleted_invalid_store eq_refl) as (H1 & _ & _ & _ & H2 & _).
  split; [exact H1 | exact H2].
Defined.

(** C1 fails as stated: a deleted record that is flagged invalid loses the
    entries of its Error Collection. *)
Lemma validate_deleted_clears_errors :
  isDeleted deleted_invalid_store = true /\
  fst (validate imports0 (person container0 [name_attr]) true deleted_invalid_store)
  = Return true /\
  errors deleted_invalid_store = [("name", "is taken")] /\
  errors (snd (validate imports0 (person container0 [name_attr]) true
                 deleted_invalid_store)) = [].
Proof. repeat split. Qed.

(** ** The shape of a validation pass *)

Lemma forEach_app {A} (f : A -> M unit) xs ys s :
  forEach (xs ++ ys) f s = (forEach xs f ;; forEach ys f) s.
Proof.
  revert s. induction xs as [| x xs IH]; simpl; intros s; [reflexivity |].
  unfold bind. destruct (f x s) as [[[] | e] s1]; [| reflexivity].
  rewrite IH. reflexivity.
Qed.

Lemma validate_eq E this willCommit s :
  validate E this willCommit s =
  if isDeleted s then (Return true, reset s)
  else
    match forEach (attributes this ++ relationships this)
            (field_pass E this) (committing willCommit (reset s)) with
    | (Return _, t) => (Return (isEmpty (errors t)), concluded t)
    | (Throw e, t) => (Throw e, t)
    end.
Proof.
  rewrite validate_reset. unfold bind at 1. unfold read at 1.
  rewrite isDeleted_reset. destruct (isDeleted s); [done |].
  rewrite forEach_app.
  unfold bind at 1.
  replace ((if willCommit then send "willCommit" else ret tt) (reset s))
    with (@Return unit tt, committing willCommit (reset s))
    by (by destruct willCommit).
  unfold bind.
  destruct (forEach (attributes this) (field_pass E this)
              (committing willCommit (reset s))) as [[[] | e] s1]; [| reflexivity].
  destruct (forEach (relationships this) (field_pass E this) s1)
    as [[[] | e] t]; [| reflexivity].
  unfold read, concluded. simpl.
  destruct (isEmpty (errors t)); reflexivity.
Qed.

Lemma forEach_reaches (R : Store -> Store -> Prop) `{!PreOrder R}
    {A} (f : A -> M unit) xs x s s' :
  (forall y, preserves R (f y)) ->
  forEach xs f s = (Return tt, s') ->
  x ∈ xs ->
  exists s1 s2, R s s1 /\ f x s1 = (Return tt, s2) /\ R s2 s'.
Proof.
  intros Hf. revert s. induction xs as [| y xs IH]; simpl; intros s Hrun Hin.
  - by apply elem_of_nil in Hin.
  - unfold bind in Hrun. destruct (f y s) as [[[] | e] s1] eqn:Hy; [| done].
    apply elem_of_cons in Hin as [-> | Hin].
    + exists s, s1. split; [reflexivity |]. split; [done |].
      by eapply (preserves_forEach R).
    + destruct (IH _ Hrun Hin) as (t1 & t2 & H1 & H2 & H3).
      exists t1, t2. split; [| done]. transitivity s1; [by eapply Hf | done].
Qed.

Global Instance same_flags_preorder : PreOrder same_flags.
Proof.
  split.
  - intros s. by split.
  - intros s1 s2 s3 [A1 A2] [B1 B2]. split; congruence.
Qed.

Global Instance pass_step_preorder : PreOrder pass_step.
Proof.
  split.
  - intros s. split; [reflexivity |]. split.
    + exists []. by rewrite app_nil_r.
    + exists []. by rewrite app_nil_r.
  - intros s1 s2 s3 (F1 & [N1 E1] & [L1 [G1 V1]]) (F2 & [N2 E2] & [L2 [G2 V2]]).
    split; [by transitivity s2 |]. split.
    + exists (N1 ++ N2). by rewrite E2, E1, app_assoc.
    + exists (L1 ++ L2). split; [by rewrite G2, G1, app_assoc |].
      by apply Forall_app.
Qed.

Global Instance keeps_stamp_preorder v : PreOrder (keeps_stamp v).
Proof.
  split.
  - by intros s l.
  - intros s1 s2 s3 H12 H23 l Hl. by apply H23, H12.
Qed.

Lemma reset_valid s : isValid (reset s) = true.
Proof. unfold reset. by destruct (isValid s) eqn:H. Qed.

Lemma reset_errors s : consistent s -> errors (reset s) = [].
Proof.
  unfold consistent, reset. destruct (isValid s); [| done]. by intros ->.
Qed.

Lemma concluded_consistent s : consistent (concluded s).
Proof.
  unfold consistent, concluded.
  destruct (errors s) as [| e es] eqn:He; simpl; [by rewrite He | done].
Qed.

Lemma concluded_errors t : errors (concluded t) = errors t.
Proof. unfold concluded. by destruct (isEmpty (errors t)). Qed.

Lemma concluded_isValid t :
  isValid t = true -> isValid (concluded t) = isEmpty (errors t).
Proof. intros H. unfold concluded. by destruct (isEmpty (errors t)). Qed.

(** The two ways a field's run loop ends. *)
Lemma field_pass_cases E this a s :
  (creatable this a /\
   exists vs s1,
     validatorsFor E this a s = (Return vs, s1) /\
     field_pass E this a s = (Return tt, after_validators this a vs s1)) \/
  (~ creatable this a /\
   exists e s1,
     validatorsFor E this a s = (Throw e, s1) /\
     field_pass E this a s =
     if Ember_testing E then (Throw e, s1)
     else (Return tt, record (Reported e) s1)).
Proof.
  rewrite field_pass_eq.
  destruct (validatorsFor E this a s) as [[vs | e] s1] eqn:Hvs.
  - left. split; [| by eexists _, _].
    apply (validatorsFor_creatable E this a s). eauto.
  - right. split; [| by eexists _, _].
    intros Hc. apply (validatorsFor_creatable E this a s) in Hc as (vs & s' & H).
    congruence.
Qed.

Lemma field_pass_pass_step E this a : preserves pass_step (field_pass E this a).
Proof.
  intros s r s' Hrun.
  destruct (field_pass_cases E this a s)
    as [(_ & vs & s1 & Hvs & H) | (_ & e & s1 & Hvs & H)];
    rewrite H in Hrun;
    destruct (validatorsFor_same_record E this a _ _ _ Hvs)
      as (He & Hl & Hv & Hd & _).
  - injection Hrun as _ <-.
    split; [by split |]. simpl. rewrite He, Hl. split; [eauto |].
    eexists. split; [reflexivity |].
    apply Forall_forall. intros ev Hev.
    apply list_elem_of_fmap in Hev as (v & -> & _). left. eauto.
  - destruct (Ember_testing E); injection Hrun as _ <-;
      (split; [by split |]); simpl; rewrite He, Hl; split.
    + exists []. by rewrite app_nil_r.
    + exists []. by rewrite app_nil_r.
    + exists []. by rewrite app_nil_r.
    + exists [Reported e]. split; [done |].
      apply Forall_singleton. right. eauto.
Qed.

Lemma fields_pass_step E this fs :
  preserves pass_step (forEach fs (field_pass E this)).
Proof.
  apply preserves_forEach; [apply _ |]. intros a. apply field_pass_pass_step.
Qed.

Lemma fields_valid E this fs willCommit s r t :
  forEach fs (field_pass E this) (committing willCommit (reset s)) = (r, t) ->
  isValid t = true.
Proof.
  intros Hloop.
  destruct (fields_pass_step _ _ _ _ _ _ Hloop) as ([Hv _] & _).
  rewrite Hv. destruct willCommit; simpl; apply reset_valid.
Qed.

(** [validate] never removes an entry from the Error Collection of a record
    flagged valid, and it starts from an empty one otherwise, whether it
    returns or throws. *)
Theorem validate_only_appends E this willCommit s :
  exists N,
    errors (snd (validate E this willCommit s))
    = (if isValid s then errors s else []) ++ N.
Proof.
  destruct (validate E this willCommit s) as [r s'] eqn:Hrun. simpl.
  revert Hrun. rewrite validate_eq.
  assert (Hreset : errors (reset s) = if isValid s then errors s else [])
    by (unfold reset; by destruct (isValid s)).
  destruct (isDeleted s).
  - intros [= _ <-]. exists []. by rewrite app_nil_r.
  - destruct (forEach _ _ _) as [[[] | e] t] eqn:Hloop;
      intros [= _ <-];
      destruct (fields_pass_step _ _ _ _ _ _ Hloop) as (_ & [N HN] & _);
      exists N; rewrite <- Hreset.
    + unfold concluded. destruct (isEmpty (errors t)); simpl; rewrite HN;
        by destruct willCommit.
    + rewrite HN. by destruct willCommit.
Qed.

(** A pass that throws stops before the verdict: the record is left flagged
    valid and not signalled dirty or invalid, with the errors that the
    fields validated before the failure have added. *)
(** The verdict of a returning pass on a record that is not deleted: it is
    [true] exactly when the Error Collection is empty afterwards, and the
    record's validity flag agrees with it. *)
Theorem validate_verdict E this willCommit s b s' :
  isDeleted s = false ->
  validate E this willCommit s = (Return b, s') ->
  (b = true <-> errors s' = []) /\
  isValid s' = b /\
  isDeleted s' = false.
Proof.
  intros Hdel. rewrite validate_eq, Hdel.
  destruct (forEach _ _ _) as [[[] | e] t] eqn:Hloop; [| done].
  intros [= <- <-].
  destruct (fields_pass_step _ _ _ _ _ _ Hloop) as ([Hv Hd] & _).
  assert (Hv0 : isValid t = true).
  { rewrite Hv. destruct willCommit; simpl; apply reset_valid. }
  assert (Hd0 : isDeleted t = false).
  { rewrite Hd. destruct willCommit; simpl; by rewrite isDeleted_reset. }
  unfold concluded. destruct (errors t) as [| x xs] eqn:He; simpl.
  - rewrite He. by repeat split.
  - repeat split; try done; simpl; by rewrite ?He.
Qed.

Lemma validate_verdict_witness :
  exists s',
    validate imports0 (person container0 [name_attr]) true store0
    = (Return false, s') /\
    isValid s' = false /\ errors s' <> [].
Proof.
  set (this := person container0 [name_attr]).
  assert (Hrun : validate imports0 this true store0
                 = (Return false, snd (validate imports0 this true store0)))
    by (vm_compute; reflexivity).
  destruct (validate_verdict imports0 this true store0 false _ eq_refl Hrun)
    as (Hiff & Hv & _).
  eexists. split; [exact Hrun |]. split; [exact Hv |].
  intros He. apply Hiff in He. discriminate He.
Defined.

(** ** A consistent record *)

(** A pass that returns leaves a consistent record, provided it started
    from one when the record is deleted. *)
Lemma validate_consistent E this willCommit s b s1 :
  consistent s \/ isDeleted s = false ->
  validate E this willCommit s = (Return b, s1) ->
  consistent s1.
Proof.
  intros Hs. rewrite validate_eq. destruct (isDeleted s) eqn:Hdel.
  - intros [= _ <-]. destruct Hs as [Hs | Hs]; [| done].
    intros _. by apply reset_errors.
  - destruct (forEach _ _ _) as [[[] | e] t]; [| done].
    intros [= _ <-]. apply concluded_consistent.
Qed.

Lemma validate_consistent_witness :
  consistent (snd (validate imports0 (person container0 [name_attr]) true
                     stale_store)).
Proof.
  apply (validate_consistent imports0 (person container0 [name_attr]) true
           stale_store false).
  - right. reflexivity.
  - vm_compute. reflexivity.
Defined.

(** ** Fields without rules *)

Lemma field_pass_without_rules E this a s :
  isEmpty (validation a) = true ->
  field_pass E this a s = (Return tt, after_validators this a [] s).
Proof.
  intros Hempty. rewrite field_pass_eq.
  unfold validatorsFor. rewrite Hempty. reflexivity.
Qed.

Lemma fields_without_rules E this fs s :
  (forall a, a ∈ fs -> isEmpty (validation a) = true) ->
  exists t,
    forEach fs (field_pass E this) s = (Return tt, t) /\
    errors t = errors s /\ heap t = heap s /\ typeKeys t = typeKeys s /\
    log t = log s.
Proof.
  revert s. induction fs as [| a fs IH]; simpl; intros s Hfs.
  - exists s. by repeat split.
  - unfold bind. rewrite field_pass_without_rules
      by (apply Hfs, elem_of_cons; by left).
    destruct (IH (after_validators this a [] s)) as (t & Hrun & He & Hh & Hk & Hl).
    { intros b Hb. apply Hfs, elem_of_cons. by right. }
    exists t. split; [exact Hrun |]. simpl in *.
    rewrite He, Hh, Hk, Hl, !app_nil_r. by repeat split.
Qed.

(** A record none of whose fields declares a rule validates without creating
    or running a validator: the pass returns, its verdict is whether the
    Error Collection left by the reset is empty, and it adds no error. *)
Theorem validate_without_rules E this willCommit s :
  (forall a, a ∈ attributes this ++ relationships this ->
             isEmpty (validation a) = true) ->
  isDeleted s = false ->
  exists s',
    validate E this willCommit s = (Return (isEmpty (errors (reset s))), s') /\
    errors s' = errors (reset s) /\
    heap s' = heap s /\
    typeKeys s' = typeKeys s /\
    invocations (log s') = invocations (log s).
Proof.
  intros Hfs Hdel. rewrite validate_eq, Hdel.
  destruct (fields_without_rules E this _ (committing willCommit (reset s)) Hfs)
    as (t & Hrun & He & Hh & Hk & Hl).
  rewrite Hrun.
  assert (He' : errors t = errors (reset s)) by (rewrite He; by destruct willCommit).
  assert (Hh' : heap t = heap s).
  { rewrite Hh. unfold reset. by destruct willCommit, (isValid s). }
  assert (Hk' : typeKeys t = typeKeys s).
  { rewrite Hk. unfold reset. by destruct willCommit, (isValid s). }
  assert (Hl' : invocations (log t) = invocations (log s)).
  { rewrite Hl. unfold reset.
    destruct willCommit, (isValid s); simpl;
      rewrite ?invocations_app; simpl; by rewrite ?app_nil_r. }
  exists (concluded t). rewrite He'. split; [done |].
  rewrite concluded_errors. split; [done |].
  unfold concluded. destruct (isEmpty (errors t)); simpl; [done |].
  repeat split; try done.
  rewrite !invocations_app. simpl. by rewrite !app_nil_r.
Qed.

Lemma validate_without_rules_witness :
  exists s',
    validate imports0 (person container0 [plain_attr]) true stale_store
    = (Return false, s') /\
    errors s' = [("name", "is taken")].
Proof.
  destruct (validate_without_rules imports0 (person container0 [plain_attr])
              true stale_store) as (s' & Hrun & He & _).
  - intros a Ha. apply list_elem_of_singleton in Ha. by subst.
  - reflexivity.
  - exists s'. split; [exact Hrun | exact He].
Defined.

(** ** The order of the errors *)

Lemma failures_names name results :
  sublist (map fst (failures name results)) (replicate (length results) name).
Proof.
  induction results as [| r results IH]; simpl; [constructor |].
  rewrite map_app. destruct r; simpl; try by apply sublist_cons.
  by apply sublist_skip.
Qed.

Lemma fields_errors E this fs s t :
  forEach fs (field_pass E this) s = (Return tt, t) ->
  exists N, errors t = errors s ++ N /\
            sublist (map fst N) (expected_runs fs).
Proof.
  revert s. induction fs as [| a fs IH]; simpl; intros s Hrun.
  - injection Hrun as <-. exists []. split; [by rewrite app_nil_r | constructor].
  - unfold bind in Hrun.
    destruct (field_pass_cases E this a s)
      as [(_ & vs & s0 & Hvs & H) | (_ & e & s0 & Hvs & H)];
      rewrite H in Hrun;
      destruct (validatorsFor_same_record E this a _ _ _ Hvs) as (He & _).
    + destruct (IH _ Hrun) as (N & HN & Hsub).
      eexists. split.
      * rewrite HN. simpl. rewrite He, <- app_assoc. reflexivity.
      * unfold expected_runs. simpl. rewrite map_app.
        apply sublist_app; [| exact Hsub].
        rewrite <- (validatorsFor_length _ _ _ _ _ _ Hvs).
        rewrite <- (length_map (result_of this a (typeKeys s0)) vs).
        apply failures_names.
    + destruct (Ember_testing E); [done |].
      destruct (IH _ Hrun) as (N & HN & Hsub).
      exists N. split; [by rewrite HN; simpl; rewrite He |].
      unfold expected_runs. simpl. by apply sublist_inserts_l.
Qed.

(** The errors of a returning pass come in field order, attributes before
    relationships, at most one per rule of each field. *)
Theorem validate_errors_in_field_order E this willCommit s b s' :
  isDeleted s = false ->
  validate E this willCommit s = (Return b, s') ->
  exists N,
    errors s' = errors (reset s) ++ N /\
    sublist (map fst N) (expected_runs (attributes this ++ relationships this)) /\
    length N <= sum_list (map (fun a => length (ruleDescriptors a))
                              (attributes this ++ relationships this)).
Proof.
  intros Hdel. rewrite validate_eq, Hdel.
  destruct (forEach _ _ _) as [[[] | e] t] eqn:Hloop; [| done].
  intros [= _ <-].
  destruct (fields_errors _ _ _ _ _ Hloop) as (N & HN & Hsub).
  exists N. split; [| split; [exact Hsub |]].
  - rewrite concluded_errors, HN. by destruct willCommit.
  - apply sublist_length in Hsub. rewrite length_map in Hsub.
    etrans; [exact Hsub |]. clear.
    induction (attributes this ++ relationships this) as [| a fs IH];
      [done |].
    unfold expected_runs in *. simpl. rewrite length_app, length_replicate. lia.
Qed.

Lemma validate_errors_in_field_order_witness :
  exists s',
    validate imports0 (person container0 [age_attr; name_attr]) true age_store
    = (Return false, s') /\
    errors s' = [("age", "must be a number"); ("age", "is too small");
                 ("name", "can't be blank")].
Proof.
  set (this := person container0 [age_attr; name_attr]).
  assert (Hrun : validate imports0 this true age_store
                 = (Return false, snd (validate imports0 this true age_store)))
    by (vm_compute; reflexivity).
  destruct (validate_errors_in_field_order imports0 this true age_store false _
              eq_refl Hrun) as (N & HN & _).
  eexists. split; [exact Hrun |]. vm_compute. reflexivity.
Defined.

(** ** The course of a pass *)

(** The log of a returning pass over the fields, field by field. *)
Lemma fields_log E this fs s t :
  forEach fs (field_pass E this) s = (Return tt, t) ->
  exists Ls, log t = log s ++ concat Ls /\ Forall2 (field_trace this) fs Ls.
Proof.
  revert s. induction fs as [| a fs IH]; simpl; intros s Hrun.
  - injection Hrun as <-. exists []. split; [by rewrite app_nil_r | constructor].
  - unfold bind in Hrun.
    destruct (field_pass_cases E this a s)
      as [(Hc & vs & s0 & Hvs & H) | (Hc & e & s0 & Hvs & H)];
      rewrite H in Hrun;
      destruct (validatorsFor_same_record E this a _ _ _ Hvs) as (_ & Hl & _).
    + destruct (IH _ Hrun) as (Ls & HL & HF2).
      exists (map (fun v => Validated (class_id (vclass v)) (attrName a)) vs :: Ls).
      split; [rewrite HL; simpl; by rewrite Hl, app_assoc |].
      constructor; [| exact HF2]. left. split; [done |].
      rewrite <- (validatorsFor_length _ _ _ _ _ _ Hvs).
      clear. induction vs as [| v vs IH]; simpl; constructor; [| done].
      by exists (class_id (vclass v)).
    + destruct (Ember_testing E); [done |].
      destruct (IH _ Hrun) as (Ls & HL & HF2).
      exists ([Reported e] :: Ls).
      split; [rewrite HL; simpl; by rewrite Hl, <- app_assoc |].
      constructor; [| exact HF2]. right. split; [done | by exists e].
Qed.

(** A pass over the fields returns when run by an application, and in
    testing mode exactly when the validators of every field can be
    created. *)
Lemma fields_return_iff E this fs s :
  (exists t, forEach fs (field_pass E this) s = (Return tt, t)) <->
  Ember_testing E = false \/ forall a, a ∈ fs -> creatable this a.
Proof.
  revert s. induction fs as [| a fs IH]; intros s; simpl.
  - split; [intros _; right; intros a Ha; by apply elem_of_nil in Ha
           | intros _; by eexists].
  - unfold bind.
    destruct (field_pass_cases E this a s)
      as [(Hc & vs & s0 & _ & H) | (Hc & e & s0 & _ & H)]; rewrite H.
    + rewrite IH. split; (intros [? | Hall]; [by left | right]).
      * intros a' Ha'. apply elem_of_cons in Ha' as [-> | Ha']; [done | by apply Hall].
      * intros a' Ha'. apply Hall, elem_of_cons. by right.
    + destruct (Ember_testing E) eqn:Ht.
      * split; [by intros [t ?] |]. intros [? | Hall]; [done |].
        exfalso. apply Hc, Hall, elem_of_cons. by left.
      * rewrite IH. split; intros _; by left.
Qed.

(** A pass over the fields that throws. *)
Lemma fields_thrown E this fs s e t :
  forEach fs (field_pass E this) s = (Throw e, t) ->
  Ember_testing E = true /\
  (exists a, a ∈ fs /\ ~ creatable this a) /\
  exists L, log t = log s ++ L /\ Forall (fun ev => exists c f, ev = Validated c f) L.
Proof.
  revert s. induction fs as [| a fs IH]; simpl; intros s Hrun; [done |].
  unfold bind in Hrun.
  destruct (field_pass_cases E this a s)
    as [(Hc & vs & s0 & Hvs & H) | (Hc & e0 & s0 & Hvs & H)];
    rewrite H in Hrun;
    destruct (validatorsFor_same_record E this a _ _ _ Hvs) as (_ & Hl & _).
  - destruct (IH _ Hrun) as (Ht & (a' & Ha' & Hno) & L & HL & HF).
    split; [done |]. split.
    { exists a'. split; [apply elem_of_cons; by right | done]. }
    eexists. split; [rewrite HL; simpl; by rewrite Hl, <- app_assoc |].
    apply Forall_app. split; [| done].
    apply Forall_forall. intros ev Hev.
    apply list_elem_of_fmap in Hev as (v & -> & _). eauto.
  - destruct (Ember_testing E) eqn:Ht.
    + injection Hrun as <- <-. split; [done |]. split.
      { exists a. split; [apply elem_of_cons; by left | done]. }
      exists []. by rewrite app_nil_r, Hl.
    + destruct (IH _ Hrun) as (Ht' & _). congruence.
Qed.

(** The signals of a returning pass on a record that is not deleted, in
    order: [willCommit] when asked for; then, field by field (attributes
    before relationships), one validator invocation per rule of a field
    whose validators can be created, and one error report for a field whose
    validators cannot; then [becomeDirty] and [becameInvalid] exactly when
    the pass returns [false].  In testing mode a pass returns only when the
    validators of every field can be created. *)
Theorem validate_trace E this willCommit s b s' :
  isDeleted s = false ->
  validate E this willCommit s = (Return b, s') ->
  exists Ls,
    log s' = log (reset s)
             ++ (if willCommit then [Sent "willCommit"] else [])
             ++ concat Ls
             ++ (if b then [] else [Sent "becomeDirty"; Triggered "becameInvalid"])
    /\ Forall2 (field_trace this) (attributes this ++ relationships this) Ls
    /\ (Ember_testing E = true ->
        forall a, a ∈ attributes this ++ relationships this -> creatable this a).
Proof.
  intros Hdel. rewrite validate_eq, Hdel.
  destruct (forEach _ _ _) as [[[] | e] t] eqn:Hloop; [| done].
  intros [= <- <-].
  destruct (fields_log _ _ _ _ _ Hloop) as (Ls & HL & HF2).
  exists Ls. split; [| split; [exact HF2 |]].
  - unfold concluded. destruct (isEmpty (errors t)); simpl; rewrite HL;
      destruct willCommit; simpl; rewrite ?app_nil_r, <- ?app_assoc; reflexivity.
  - intros Ht.
    destruct (proj1 (fields_return_iff E this _ _) (ex_intro _ t Hloop));
      [congruence | done].
Qed.

(** Run by an application, the pass over [name], [nick] (whose rule type is
    registered nowhere) and [age] reports the failure of [nick] and goes
    on. *)
Lemma validate_trace_witness :
  exists s',
    validate imports_app (person container0 [name_attr; nick_attr; age_attr]) true
      age_store
    = (Return false, s') /\
    log s' = [Sent "willCommit"; Validated 1 "name";
              Reported (AssertionFailed "Could not find Validator `unknown`.");
              Validated 2 "age"; Validated 3 "age";
              Sent "becomeDirty"; Triggered "becameInvalid"].
Proof.
  set (this := person container0 [name_attr; nick_attr; age_attr]).
  assert (Hrun : validate imports_app this true age_store
                 = (Return false, snd (validate imports_app this true age_store)))
    by (vm_compute; reflexivity).
  destruct (validate_trace imports_app this true age_store false _ eq_refl Hrun)
    as (Ls & HL & _).
  exists (snd (validate imports_app this true age_store)).
  split; [exact Hrun |]. vm_compute. reflexivity.
Defined.

(** Only a test run makes a pass throw, and it throws because the
    validators of some field cannot be created.  The pass stops before the
    verdict: the record is left flagged valid and not signalled dirty or
    invalid, with the errors that the fields validated before the failure
    have added. *)
Theorem validate_abort E this willCommit s e s' :
  validate E this willCommit s = (Throw e, s') ->
  Ember_testing E = true /\
  isDeleted s = false /\
  isValid s' = true /\
  (exists a, a ∈ attributes this ++ relationships this /\ ~ creatable this a) /\
  exists N L,
    errors s' = errors (reset s) ++ N /\
    log s' = log (reset s)
             ++ (if willCommit then [Sent "willCommit"] else []) ++ L /\
    Forall (fun ev => exists c f, ev = Validated c f) L.
Proof.
  rewrite validate_eq. destruct (isDeleted s); [done |].
  destruct (forEach _ _ _) as [[[] | e'] t] eqn:Hloop; [done |].
  intros [= _ <-].
  destruct (fields_thrown _ _ _ _ _ _ Hloop) as (Ht & Hex & L & HL & HF).
  destruct (fields_pass_step _ _ _ _ _ _ Hloop) as ([Hv _] & [N HN] & _).
  split; [done |]. split; [done |]. split; [| split; [done |]].
  - rewrite Hv. destruct willCommit; simpl; apply reset_valid.
  - exists N, L. split; [| split; [| exact HF]].
    + rewrite HN. by destruct willCommit.
    + rewrite HL. destruct willCommit; simpl; by rewrite <- ?app_assoc.
Qed.

Lemma validate_abort_witness :
  exists e s',
    validate imports0 (person container0 [name_attr; nick_attr]) true store0
    = (Throw e, s') /\
    isValid s' = true /\
    errors s' = [("name", "can't be blank")].
Proof.
  set (this := person container0 [name_attr; nick_attr]).
  assert (Hrun : validate imports0 this true store0
                 = (Throw (AssertionFailed "Could not find Validator `unknown`."),
                    snd (validate imports0 this true store0)))
    by (vm_compute; reflexivity).
  destruct (validate_abort imports0 this true store0 _ _ Hrun)
    as (_ & _ & Hv & _).
  eexists _, _. split; [exact Hrun |]. split; [exact Hv |].
  vm_compute. reflexivity.
Defined.

(** A pass returns (rather than throws) exactly when the record is deleted,
    or the pass is run by an application, or the validators of every field
    can be created. *)
Theorem validate_returns_iff E this willCommit s :
  (exists b s', validate E this willCommit s = (Return b, s')) <->
  isDeleted s = true \/ Ember_testing E = false \/
  (forall a, a ∈ attributes this ++ relationships this -> creatable this a).
Proof.
  rewrite validate_eq. destruct (isDeleted s).
  - split; [by left | intros _; by eexists _, _].
  - split.
    + intros (b & s' & Hrun). right.
      destruct (forEach _ _ _) as [[[] | e] t] eqn:Hloop; [| done].
      apply (fields_return_iff E this _ (committing willCommit (reset s))). eauto.
    + intros [? | Hall]; [done |].
      destruct (proj2 (fields_return_iff E this _
                         (committing willCommit (reset s))) Hall) as (t & Hloop).
      rewrite Hloop. by eexists _, _.
Qed.

(** ** Stamping the fields *)

Lemma field_pass_keeps_stamp E this a :
  preserves
    (keeps_stamp (js_or (constructor_modelName this) (constructor_typeKey this)))
    (field_pass E this a).
Proof.
  intros s r s' Hrun.
  destruct (field_pass_cases E this a s)
    as [(_ & vs & s1 & Hvs & H) | (_ & e & s1 & Hvs & H)];
    rewrite H in Hrun;
    destruct (validatorsFor_same_record E this a _ _ _ Hvs) as (_ & _ & _ & _ & Hp).
  - injection Hrun as _ <-. intros l Hl. simpl. rewrite Hp.
    destruct (decide (attr_ref a = l)) as [<- | Hne].
    + by rewrite lookup_insert_eq.
    + by rewrite lookup_insert_ne.
  - destruct (Ember_testing E); injection Hrun as _ <-;
      intros l Hl; simpl; by rewrite Hp.
Qed.

(** After a returning pass every attribute and relationship whose validators
    can be created, with or without rules, carries the model's name
    ([modelName], or [typeKey] where that is missing) as its
    [parentTypeKey]. *)
Theorem validate_stamps_fields E this willCommit s b s' :
  isDeleted s = false ->
  validate E this willCommit s = (Return b, s') ->
  forall a, a ∈ attributes this ++ relationships this ->
    creatable this a ->
    parentTypeKeys s' !! attr_ref a
    = Some (js_or (constructor_modelName this) (constructor_typeKey this)).
Proof.
  intros Hdel. rewrite validate_eq, Hdel.
  destruct (forEach _ _ _) as [[[] | e] t] eqn:Hloop; [| done].
  intros [= _ <-] a Ha Hc.
  destruct (forEach_reaches (keeps_stamp _) _ _ a _ _
              (field_pass_keeps_stamp E this) Hloop Ha)
    as (s1 & s2 & _ & Hfield & Hkeep).
  assert (Hp : parentTypeKeys (concluded t) = parentTypeKeys t)
    by (unfold concluded; by destruct (isEmpty (errors t))).
  rewrite Hp. apply Hkeep.
  destruct (field_pass_cases E this a s1)
    as [(_ & vs & s0 & _ & H) | (Hno & _)]; [| done].
  rewrite H in Hfield. injection Hfield as <-. simpl. apply lookup_insert_eq.
Qed.

Lemma validate_stamps_fields_witness :
  exists s',
    validate imports_app (person container0 [nick_attr; plain_attr]) true store0
    = (Return true, s') /\
    parentTypeKeys s' !! 14 = Some (VStr "person") /\
    parentTypeKeys s' !! 12 = None.
Proof.
  set (this := person container0 [nick_attr; plain_attr]).
  assert (Hrun : validate imports_app this true store0
                 = (Return true, snd (validate imports_app this true store0)))
    by (vm_compute; reflexivity).
  eexists. split; [exact Hrun |]. split; [| vm_compute; reflexivity].
  apply (validate_stamps_fields imports_app this true store0 true _ eq_refl Hrun
           plain_attr).
  - apply elem_of_cons. right. apply elem_of_cons. by left.
  - split; [reflexivity |]. intros d Hd. by apply elem_of_nil in Hd.
Defined.

(** ** A rule type that is registered nowhere *)







(** ** The commit guard *)

Lemma createValidationError_unresolved E model s :
  lookupMessageResolver (getOwner model) = None ->
  createValidationError E model s =
  (Throw (TypeError "Cannot read property 'resolveMessage' of undefined"), s).
Proof.
  intros H. unfold createValidationError. rewrite H. reflexivity.
Qed.

(** With a resolver registered, an unresolved message is replaced by the
    built-in default. *)
Lemma createValidationError_resolved E model r s :
  lookupMessageResolver (getOwner model) = Some r ->
  createValidationError E model s =
  (Return {| message :=
               if isEmpty (resolveMessage r "error")
               then defaultMessages_error E
               else default "" (resolveMessage r "error");
             error_errors := errors s |}, s).
Proof.
  intros H. unfold createValidationError. rewrite H. reflexivity.
Qed.

(** With a resolver registered, a failed validation makes [save] answer with
    the rejection that carries the record's errors and the resolved message,
    or the built-in default when the resolver has none. *)
Lemma save_rejects E this r s s1 :
  lookupMessageResolver (getOwner this) = Some r ->
  validate E this true s = (Return false, s1) ->
  save E this true s =
  (Return (Reject {| message :=
                       if isEmpty (resolveMessage r "error")
                       then defaultMessages_error E
                       else default "" (resolveMessage r "error");
                     error_errors := errors s1 |}), s1).
Proof.
  intros Hr Hv. unfold save. simpl. rewrite (bind_Return _ _ _ _ _ Hv).
  unfold bind. by rewrite (createValidationError_resolved _ _ _ _ Hr).
Qed.

(** [save({validate: false})] hands over to the inherited [save] at once:
    nothing is validated and the store is untouched. *)
Lemma save_bypass E this s : save E this false s = (Return Super, s).
Proof. unfold save. simpl. reflexivity. Qed.

(** A record that passes validation is committed. *)
Lemma save_commits_valid E this s s1 :
  validate E this true s = (Return true, s1) ->
  save E this true s = (Return Super, s1).
Proof.
  intros Hv. unfold save. simpl. by rewrite (bind_Return _ _ _ _ _ Hv).
Qed.

Lemma save_commits_valid_witness :
  exists s1,
    save imports0 (person container0 [flag_attr]) true store0 = (Return Super, s1).
Proof.
  set (this := person container0 [flag_attr]).
  exists (snd (validate imports0 this true store0)).
  apply (save_commits_valid imports0 this store0).
  vm_compute. reflexivity.
Defined.

Lemma save_never_commits_invalid E this s s1 s2 :
  validate E this true s = (Return false, s1) ->
  save E this true s <> (Return Super, s2).
Proof.
  intros Hv. unfold save. simpl. rewrite (bind_Return _ _ _ _ _ Hv).
  unfold bind. destruct (createValidationError E this s1) as [[v | e] s']; done.
Qed.

Lemma lookupMessageResolver_order container :
  lookupMessageResolver container =
  match container_lookup container "resolver:validation-message" with
  | Some r => Some r
  | None =>
      container_lookup container
        "ember-cli-data-validation@resolver:validation-message"
  end.
Proof. reflexivity. Qed.

(** C4, as amended: when a message resolver is found (under the primary
    name, else under the vendored one), building the Validation Error
    succeeds, leaves the store alone and bundles the Error Collection; its
    message is the built-in default when the resolver has no message for
    [error] (nothing, or the empty string) and the resolved message
    otherwise. *)
Theorem createValidationError_defaults E model r s :
  lookupMessageResolver (getOwner model) = Some r ->
  (container_lookup (getOwner model) "resolver:validation-message" = Some r \/
   container_lookup (getOwner model) "resolver:validation-message" = None /\
   container_lookup (getOwner model)
     "ember-cli-data-validation@resolver:validation-message" = Some r) /\
  exists e,
    createValidationError E model s = (Return e, s) /\
    error_errors e = errors s /\
    (resolveMessage r "error" = None -> message e = defaultMessages_error E) /\
    (resolveMessage r "error" = Some "" -> message e = defaultMessages_error E) /\
    (forall m, resolveMessage r "error" = Some m -> m <> "" -> message e = m).
Proof.
  intros Hr. split.
  - rewrite lookupMessageResolver_order in Hr.
    destruct (container_lookup (getOwner model) "resolver:validation-message");
      [left | right]; by try split.
  - rewrite (createValidationError_resolved _ _ _ _ Hr).
    eexists. split; [reflexivity |]. simpl. split; [done |].
    split; [by intros -> |]. split; [by intros -> |].
    intros m -> Hm. unfold isEmpty, message_empty.
    destruct (String.eqb m "") eqn:Heq; [| reflexivity].
    by apply String.eqb_eq in Heq.
Qed.

Lemma createValidationError_defaults_witness :
  exists e,
    createValidationError imports0 (person container0 [name_attr]) stale_store
    = (Return e, stale_store) /\
    message e = "Model is not valid." /\
    error_errors e = [("name", "is taken")].
Proof.
  destruct (createValidationError_defaults imports0
              (person container0 [name_attr]) resolver0 stale_store eq_refl)
    as (_ & e & Hrun & Herr & Hnone & _).
  exists e. split; [exact Hrun |]. split; [by apply Hnone | exact Herr].
Defined.

(** C4 fails as stated: with no message resolver registered under either
    name, building the Validation Error of a record that failed validation
    throws; the default message is not reached. *)
Lemma createValidationError_without_resolver :
  lookupMessageResolver container_bare = None /\
  createValidationError imports0 (person container_bare [name_attr])
    (snd (validate imports0 (person container_bare [name_attr]) true store0))
  = (Throw (TypeError "Cannot read property 'resolveMessage' of undefined"),
     snd (validate imports0 (person container_bare [name_attr]) true store0)).
Proof.
  split; [reflexivity |].
  apply createValidationError_unresolved. reflexivity.
Qed.

(** C2, as amended: when the validation pass run by [save] returns [false]
    the inherited [save] is never reached, and with a message resolver
    registered the outcome is a rejection whose Validation Error bundles the
    record's Error Collection as the pass left it. *)
Theorem save_guards_commit E this s s1 :
  validate E this true s = (Return false, s1) ->
  (forall s2, save E this true s <> (Return Super, s2)) /\
  (forall r, lookupMessageResolver (getOwner this) = Some r ->
     exists reason,
       save E this true s = (Return (Reject reason), s1) /\
       error_errors reason = errors s1).
Proof.
  intros Hv. split.
  - intros s2. by apply save_never_commits_invalid with s1.
  - intros r Hr. rewrite (save_rejects _ _ _ _ _ Hr Hv).
    eexists. split; reflexivity.
Qed.

Lemma save_guards_commit_witness :
  exists reason s1,
    save imports0 (person container0 [name_attr]) true store0
    = (Return (Reject reason), s1) /\
    error_errors reason = errors s1 /\
    errors s1 = [("name", "can't be blank")].
Proof.
  set (this := person container0 [name_attr]).
  assert (Hv : validate imports0 this true store0
               = (Return false, snd (validate imports0 this true store0)))
    by (vm_compute; reflexivity).
  destruct (save_guards_commit imports0 this store0 _ Hv) as [_ Hrej].
  destruct (Hrej resolver0 eq_refl) as (reason & Hsave & Herr).
  exists reason, (snd (validate imports0 this true store0)).
  split; [exact Hsave |]. split; [exact Herr |]. vm_compute. reflexivity.
Defined.

(** C2 fails as stated: with no message resolver registered the validation
    pass returns [false], the inherited [save] is not reached, and [save]
    throws where a rejection was promised. *)
Lemma save_without_resolver_throws :
  fst (validate imports0 (person container_bare [name_attr]) true store0)
  = Return false /\
  fst (save imports0 (person container_bare [name_attr]) true store0)
  = Throw (TypeError "Cannot read property 'resolveMessage' of undefined").
Proof.
  split.
  - vm_compute. reflexivity.
  - vm_compute. reflexivity.
Qed.

(** ** The commit guard follows the pass *)


(** ** Merging into declared objects *)







(** ** Two passes in succession *)

Global Instance same_objects_equiv : Equivalence same_objects.
Proof.
  split.
  - intros s l v1 v2. reflexivity.
  - intros s1 s2 H l v1 v2. symmetry. apply H.
  - intros s1 s2 s3 H12 H23 l v1 v2. by rewrite H12.
Qed.

Global Instance same_objects_preorder : PreOrder same_objects.
Proof. split; apply _. Qed.

Lemma heap_sim_insert h h' l o :
  heap_sim h h' -> heap_sim (<[l := o]> h) (<[l := o]> h').
Proof.
  intros H l0 v1 v2. destruct (decide (l = l0)) as [<- | Hne].
  - by rewrite !deref_insert_eq.
  - rewrite !deref_insert_ne by done. apply H.
Qed.

Lemma heap_sim_merged h l container obj :
  heap_sim h (<[l := Ember_merge (deref h l) (updates_of container obj)]> h).
Proof.
  intros l0 v1 v2. destruct (decide (l = l0)) as [<- | Hne].
  - rewrite deref_insert_eq. unfold updates_of. by rewrite merge_absorb.
  - by rewrite deref_insert_ne.
Qed.

Lemma same_objects_same_heap s s' : heap s' = heap s -> same_objects s s'.
Proof. intros H l v1 v2. by rewrite H. Qed.

Lemma merged_same_objects container obj s : same_objects s (merged container obj s).
Proof.
  unfold merged. destruct (value obj); try reflexivity.
  unfold same_objects. simpl. apply heap_sim_merged.
Qed.

Lemma merged_sim container obj s s' :
  same_objects s s' ->
  same_objects (merged container obj s) (merged container obj s').
Proof.
  intros Hsim. unfold merged. destruct (value obj) as [| | | | | l]; try done.
  unfold same_objects. simpl. unfold updates_of. rewrite (Hsim l).
  by apply heap_sim_insert.
Qed.

Lemma config_of_sim container obj s s' :
  same_objects s s' -> config_of container obj s = config_of container obj s'.
Proof.
  intros Hsim. unfold config_of. destruct (value obj) as [| | | | | l]; try done.
  apply (Hsim l).
Qed.

Lemma lookupValidator_same_objects E container obj :
  preserves same_objects (lookupValidator E container obj).
Proof.
  intros s r s' Hrun.
  destruct (lookupValidator_store _ _ _ _ _ _ Hrun) as (_ & [Hh | Hh] & _).
  - by apply same_objects_same_heap.
  - transitivity (merged container obj s); [apply merged_same_objects |].
    by apply same_objects_same_heap.
Qed.

Lemma validatorsFor_same_objects E this a :
  preserves same_objects (validatorsFor E this a).
Proof.
  intros s r s'. rewrite validatorsFor_eq.
  destruct (iterable (validation a)).
  - apply (preserves_mapM same_objects). intros obj.
    apply lookupValidator_same_objects.
  - by intros [= _ <-].
Qed.

Lemma field_pass_same_objects E this a :
  preserves same_objects (field_pass E this a).
Proof.
  intros s r s'. rewrite field_pass_eq.
  destruct (validatorsFor E this a s) as [[vs | e] s1] eqn:Hvs;
    pose proof (validatorsFor_same_objects E this a _ _ _ Hvs) as Hg.
  - by intros [= _ <-].
  - destruct (Ember_testing E); by intros [= _ <-].
Qed.

(** Instantiating a rule from two stores with the same objects ends the
    same way. *)
Lemma lookupValidator_sim E container obj s s' r t :
  same_objects s s' ->
  lookupValidator E container obj s = (r, t) ->
  exists t',
    lookupValidator E container obj s' = (r, t') /\
    same_objects t t' /\
    (forall c, typeKeys s !! c = typeKeys s' !! c \/
               c ∈ classes_of r (fun v => [class_id (vclass v)]) ->
               typeKeys t !! c = typeKeys t' !! c).
Proof.
  intros Hsim. rewrite !lookupValidator_eq.
  assert (Hstamp : forall c cls x,
            typeKeys s !! c = typeKeys s' !! c \/ c ∈ [class_id cls] ->
            <[class_id cls := x]> (typeKeys s) !! c
            = <[class_id cls := x]> (typeKeys s') !! c).
  { intros c cls x [Heq | Hc].
    - destruct (decide (class_id cls = c)) as [<- | Hne].
      + by rewrite !lookup_insert_eq.
      + by rewrite !lookup_insert_ne.
    - apply list_elem_of_singleton in Hc as ->. by rewrite !lookup_insert_eq. }
  assert (Hkeep : forall c,
            typeKeys s !! c = typeKeys s' !! c \/ c ∈ @nil fid ->
            typeKeys s !! c = typeKeys s' !! c).
  { intros c [? | Hc]; [done | by apply elem_of_nil in Hc]. }
  pose proof (merged_sim container obj _ _ Hsim) as Hm.
  rewrite (config_of_sim container obj _ _ Hsim).
  destruct (lookupValidtorFactory container (type obj)) as [cls |].
  - destruct (value obj) eqn:Hv; intros [= <- <-]; eexists;
      (split; [reflexivity |]); (split; [done |]); simpl;
      rewrite ?typeKeys_merged; intros c Hc;
      first [by apply Hstamp | by apply Hkeep].
  - destruct (Ember_debug E).
    + intros [= <- <-]. eexists. split; [reflexivity |]. split; [done |].
      apply Hkeep.
    + destruct (value obj) eqn:Hv; intros [= <- <-]; eexists;
        (split; [reflexivity |]); (split; [done |]); simpl;
        rewrite ?typeKeys_merged; apply Hkeep.
Qed.

Lemma mapM_lookupValidator_sim E container ds s s' r t :
  same_objects s s' ->
  mapM (lookupValidator E container) ds s = (r, t) ->
  exists t',
    mapM (lookupValidator E container) ds s' = (r, t') /\
    same_objects t t' /\
    (forall c, typeKeys s !! c = typeKeys s' !! c \/
               c ∈ classes_of r (map (fun v => class_id (vclass v))) ->
               typeKeys t !! c = typeKeys t' !! c).
Proof.
  revert s s' r. induction ds as [| d ds IH]; simpl; intros s s' r Hsim Hrun.
  - injection Hrun as <- <-. exists s'. split; [done |]. split; [done |].
    intros c [Hc | Hc]; [done | by apply elem_of_nil in Hc].
  - unfold bind in Hrun |- *.
    destruct (lookupValidator E container d s) as [[v | e] s1] eqn:Hd.
    + destruct (lookupValidator_sim _ _ _ _ _ _ _ Hsim Hd)
        as (s1' & -> & Hsim1 & Hk1).
      destruct (mapM (lookupValidator E container) ds s1) as [[vs' | e] s2] eqn:Hm;
        injection Hrun as <- <-;
        destruct (IH _ _ _ Hsim1 Hm) as (t' & -> & Hsim2 & Hk2);
        exists t'; (split; [done |]); (split; [done |]);
        intros c Hc; apply Hk2; simpl in Hc.
      * destruct Hc as [Hc | Hc].
        -- left. apply Hk1. by left.
        -- apply elem_of_cons in Hc as [-> | Hc]; [| by right].
           left. apply Hk1. right. by apply list_elem_of_singleton.
      * destruct Hc as [Hc | Hc]; [| by apply elem_of_nil in Hc].
        left. apply Hk1. by left.
    + injection Hrun as <- <-.
      destruct (lookupValidator_sim _ _ _ _ _ _ _ Hsim Hd)
        as (s1' & -> & Hsim1 & Hk1).
      exists s1'. split; [done |]. split; [done |].
      intros c Hc. apply Hk1. simpl. destruct Hc as [Hc | Hc]; [by left |].
      by apply elem_of_nil in Hc.
Qed.

Lemma validatorsFor_sim E this a s s' r t :
  same_objects s s' ->
  validatorsFor E this a s = (r, t) ->
  exists t',
    validatorsFor E this a s' = (r, t') /\
    same_objects t t' /\
    (forall c, typeKeys s !! c = typeKeys s' !! c \/
               c ∈ classes_of r (map (fun v => class_id (vclass v))) ->
               typeKeys t !! c = typeKeys t' !! c).
Proof.
  intros Hsim. rewrite !validatorsFor_eq.
  destruct (iterable (validation a)); [by apply mapM_lookupValidator_sim |].
  intros [= <- <-]. exists s'. split; [done |]. split; [done |].
  intros c [Hc | Hc]; [done | by apply elem_of_nil in Hc].
Qed.

Lemma field_pass_same_flags E this a : preserves same_flags (field_pass E this a).
Proof.
  intros s r s' Hrun. by destruct (field_pass_pass_step E this a _ _ _ Hrun).
Qed.

Lemma field_pass_sim E this a s s' t :
  same_objects s s' ->
  field_pass E this a s = (Return tt, t) ->
  exists t' N,
    field_pass E this a s' = (Return tt, t') /\
    same_objects t t' /\
    errors t = errors s ++ N /\
    errors t' = errors s' ++ N.
Proof.
  intros Hsim. rewrite !field_pass_eq.
  destruct (validatorsFor E this a s) as [[vs | e] s1] eqn:Hvs;
    destruct (validatorsFor_sim _ _ _ _ _ _ _ Hsim Hvs)
      as (s1' & Hvs' & Hsim1 & Hstamps);
    rewrite Hvs';
    destruct (validatorsFor_same_record E this a _ _ _ Hvs) as (He & _);
    destruct (validatorsFor_same_record E this a _ _ _ Hvs') as (He' & _).
  - intros [= <-].
    exists (after_validators this a vs s1'),
           (failures (attrName a) (map (result_of this a (typeKeys s1)) vs)).
    split; [done |]. split; [exact Hsim1 |]. simpl. rewrite He, He'.
    split; [done |]. do 2 f_equal.
    apply map_ext_in. intros v Hv. unfold result_of.
    rewrite (Hstamps (class_id (vclass v))); [done |].
    right. simpl. apply list_elem_of_In.
    by apply (in_map (fun v => class_id (vclass v))).
  - destruct (Ember_testing E); [done |]. intros [= <-].
    exists (record (Reported e) s1'), [].
    split; [done |]. split; [exact Hsim1 |]. simpl.
    by rewrite He, He', !app_nil_r.
Qed.

Lemma fields_sim E this fs s s' t :
  same_objects s s' ->
  forEach fs (field_pass E this) s = (Return tt, t) ->
  exists t' N,
    forEach fs (field_pass E this) s' = (Return tt, t') /\
    same_objects t t' /\
    errors t = errors s ++ N /\
    errors t' = errors s' ++ N.
Proof.
  revert s s'. induction fs as [| a fs IH]; simpl; intros s s' Hsim Hrun.
  - injection Hrun as <-. exists s', []. by rewrite !app_nil_r.
  - unfold bind in Hrun.
    destruct (field_pass E this a s) as [[[] | e] s1] eqn:Ha; [| done].
    destruct (field_pass_sim _ _ _ _ _ _ Hsim Ha)
      as (s1' & N1 & Ha' & Hsim1 & He1 & He1').
    destruct (IH _ _ Hsim1 Hrun) as (t' & N2 & Hrun' & Hsim2 & He2 & He2').
    exists t', (N1 ++ N2). split; [| split; [done |]].
    + unfold bind. by rewrite Ha'.
    + rewrite He2, He2', He1, He1'. by rewrite !app_assoc.
Qed.

(** C9, as amended: on a record that holds no error while it is flagged
    valid, a pass that returns is followed by a pass that returns the same
    boolean and leaves the same Error Collection; the validators, the field
    values and the declarations are those of the first pass, up to what the
    first pass merged into the declared objects. *)
Theorem validate_twice E this willCommit willCommit' s b s1 :
  consistent s ->
  validate E this willCommit s = (Return b, s1) ->
  exists s2,
    validate E this willCommit' s1 = (Return b, s2) /\
    errors s2 = errors s1.
Proof.
  intros Hcons Hrun. rewrite validate_eq in Hrun.
  destruct (isDeleted s) eqn:Hdel.
  - injection Hrun as <- <-. exists (reset s).
    rewrite validate_eq, isDeleted_reset, Hdel.
    unfold reset at 1 3. by rewrite reset_valid.
  - destruct (forEach _ _ _) as [[[] | e] t] eqn:Hloop; [| done].
    injection Hrun as <- <-.
    set (s0 := committing willCommit (reset s)) in *.
    set (s0' := committing willCommit' (reset (concluded t))).
    assert (He0 : errors s0 = []).
    { unfold s0. destruct willCommit; simpl; by apply reset_errors. }
    assert (He0' : errors s0' = []).
    { unfold s0'. destruct willCommit'; simpl;
        apply reset_errors, concluded_consistent. }
    assert (Hflags : same_flags s0 t).
    { eapply (preserves_forEach same_flags); [| exact Hloop].
      intros a. apply field_pass_same_flags. }
    assert (Hdel0 : isDeleted s0 = false).
    { unfold s0. destruct willCommit; simpl; by rewrite isDeleted_reset. }
    assert (Hdelt : isDeleted (concluded t) = false).
    { destruct Hflags as [_ Hd]. unfold concluded.
      destruct (isEmpty (errors t)); simpl; congruence. }
    assert (Hsim : same_objects s0 s0').
    { transitivity t.
      - eapply (preserves_forEach same_objects); [| exact Hloop].
        intros a. apply field_pass_same_objects.
      - apply same_objects_same_heap. unfold s0', reset, concluded.
        destruct willCommit', (isEmpty (errors t)); simpl;
          destruct (isValid t); reflexivity. }
    destruct (fields_sim _ _ _ _ _ _ Hsim Hloop) as (t' & N & Hloop' & _ & Ht & Ht').
    rewrite He0 in Ht. rewrite He0' in Ht'. simpl in Ht, Ht'.
    exists (concluded t'). rewrite validate_eq, Hdelt. fold s0'. rewrite Hloop'.
    assert (Heq : errors t' = errors t) by congruence.
    split.
    + by rewrite Heq.
    + unfold concluded. rewrite Heq.
      destruct (isEmpty (errors t)); simpl; done.
Qed.

Lemma validate_twice_witness :
  exists s2,
    validate imports0 (person container0 [name_attr; age_attr]) true
      (snd (validate imports0 (person container0 [name_attr; age_attr]) true
              age_store))
    = (Return false, s2) /\
    errors s2 = [("name", "can't be blank"); ("age", "must be a number");
                 ("age", "is too small")].
Proof.
  pose (this := person container0 [name_attr; age_attr]).
  assert (Hcons : consistent age_store) by (intros _; reflexivity).
  assert (Hrun : validate imports0 this true age_store
                 = (Return false, snd (validate imports0 this true age_store)))
    by (vm_compute; reflexivity).
  destruct (validate_twice imports0 this true true age_store false _ Hcons Hrun)
    as (s2 & Hrun2 & Herr).
  exists s2. split; [exact Hrun2 |]. rewrite Herr. vm_compute. reflexivity.
Defined.

(** C9 fails as stated: on a record flagged valid whose Error Collection is
    not empty, the first pass reports [false] and the second, which clears
    the collection, reports [true]. *)
Lemma validate_twice_stale_errors :
  isValid stale_store = true /\
  errors stale_store = [("name", "is taken")] /\
  fst (validate imports0 (person container0 []) true stale_store) = Return false /\
  fst (validate imports0 (person container0 []) true
         (snd (validate imports0 (person container0 []) true stale_store)))
  = Return true /\
  errors (snd (validate imports0 (person container0 []) true stale_store))
  = [("name", "is taken")] /\
  errors (snd (validate imports0 (person container0 []) true
                 (snd (validate imports0 (person container0 []) true stale_store))))
  = [].
Proof. repeat split. Qed.

(** ** What [willCommit] changes *)

(** [willCommit] decides one signal and nothing else: a pass without it
    returns the same verdict and leaves the same errors and flags, and only
    the pass with it sends [willCommit]. *)
Theorem willCommit_only_signals E this s b s1 :
  validate E this true s = (Return b, s1) ->
  exists s2,
    validate E this false s = (Return b, s2) /\
    errors s2 = errors s1 /\
    isValid s2 = isValid s1 /\
    (isDeleted s = false ->
     Sent "willCommit" ∈ log s1 /\
     (Sent "willCommit" ∉ log (reset s) -> Sent "willCommit" ∉ log s2)).
Proof.
  intros Hrun.
  destruct (isDeleted s) eqn:Hdel.
  - rewrite validate_eq, Hdel in Hrun. injection Hrun as <- <-.
    exists (reset s). rewrite validate_eq, Hdel. by repeat split.
  - rewrite validate_eq, Hdel in Hrun.
    destruct (forEach _ _ _) as [[[] | e] t] eqn:Hloop; [| done].
    injection Hrun as <- <-.
    assert (Hsim : same_objects (committing true (reset s))
                                (committing false (reset s)))
      by (by apply same_objects_same_heap).
    destruct (fields_sim _ _ _ _ _ _ Hsim Hloop) as (t' & N & Hloop' & _ & Ht & Ht').
    assert (Heq : errors t' = errors t) by (simpl in Ht, Ht'; congruence).
    exists (concluded t').
    split; [rewrite validate_eq, Hdel, Hloop'; by rewrite Heq |].
    split; [by rewrite !concluded_errors |].
    split.
    { rewrite !concluded_isValid, Heq; [done | |];
        by eapply fields_valid. }
    intros _.
    destruct (fields_pass_step _ _ _ _ _ _ Hloop) as (_ & _ & L1 & HL1 & _).
    destruct (fields_pass_step _ _ _ _ _ _ Hloop') as (_ & _ & L2 & HL2 & HF2).
    split.
    + assert (Hin : Sent "willCommit" ∈ log t).
      { rewrite HL1. simpl. apply elem_of_app. left. apply elem_of_app. right.
        by apply list_elem_of_singleton. }
      unfold concluded. destruct (isEmpty (errors t)); simpl; [done |].
      apply elem_of_app. left. apply elem_of_app. by left.
    + intros Hnot Hin.
      assert (Hin' : Sent "willCommit" ∈ log t').
      { unfold concluded in Hin. destruct (isEmpty (errors t')); simpl in Hin;
          [done |].
        apply elem_of_app in Hin as [Hin | Hin].
        - apply elem_of_app in Hin as [Hin | Hin]; [done |].
          by apply list_elem_of_singleton in Hin.
        - by apply list_elem_of_singleton in Hin. }
      rewrite HL2 in Hin'. simpl in Hin'.
      apply elem_of_app in Hin' as [Hin' | Hin']; [done |].
      rewrite Forall_forall in HF2.
      destruct (HF2 _ Hin') as [(c & f & ?) | (e & ?)]; done.
Qed.

Lemma willCommit_only_signals_witness :
  exists s2,
    validate imports0 (person container0 [name_attr]) false store0
    = (Return false, s2) /\
    errors s2 = [("name", "can't be blank")].
Proof.
  set (this := person container0 [name_attr]).
  assert (Hrun : validate imports0 this true store0
                 = (Return false, snd (validate imports0 this true store0)))
    by (vm_compute; reflexivity).
  destruct (willCommit_only_signals imports0 this store0 false _ Hrun)
    as (s2 & Hrun2 & He & _).
  exists s2. split; [exact Hrun2 |]. rewrite He. vm_compute. reflexivity.
Defined.
